(** * Parallelization patterns: sectioning and voting

    A shallow embedding of [Parallelization-pattern/sectioning.py] and
    [Parallelization-pattern/voting.py]: the inference client
    [call_ollama], the [asyncio.gather] fan-out, the newsletter formatter
    and the sentiment vote, with the properties their specification
    states about them; and, of the pages, the connection test of the
    sidebar and the list of the votes.

    Conventions.
    - A Python [str] is a list of Unicode code points ([list N]).
    - Python's [str.upper], [str.strip] and [str.split] consult the
      Unicode character database; the database is a parameter
      ([unicode_db]) whose ASCII part is pinned down by [ascii_compatible].
    - A value whose type the code does not check (a member of a decoded
      JSON object, the return value of [call_ollama]) is a [pyval]: a
      string, or another value kept by the name of its type and by its
      [str()].
    - A computation that may raise is a [result]; [try/except Exception]
      is [try_except]. An [async def] that awaits is an
      [option (result A)]: [None] when what it awaits never settles.
    - A [dict] whose order of keys is observed is an association list
      with unique keys ([odict_get], [odict_set]); any other [dict] is a
      [gmap].
    - The writes to standard output ([print]) are left out: no claim is
      about them. *)

From Stdlib Require Import ZArith NArith Ascii String DecimalString Lia Bool.
From Stdlib Require Import Permutation.
From stdpp Require Import base option list gmap.

(** ** Python strings *)

Module PyStr.

Abbreviation pystr := (list N).

(** Code points of a UTF-8 byte sequence (the source files are UTF-8). *)
Fixpoint utf8_decode (bs : list N) : pystr :=
  match bs with
  | [] => []
  | b0 :: r0 =>
    if (b0 <? 0x80)%N then b0 :: utf8_decode r0
    else if (b0 <? 0xE0)%N then
      match r0 with
      | b1 :: r1 => ((b0 - 0xC0) * 0x40 + (b1 - 0x80))%N :: utf8_decode r1
      | _ => []
      end
    else if (b0 <? 0xF0)%N then
      match r0 with
      | b1 :: b2 :: r2 =>
        ((b0 - 0xE0) * 0x1000 + (b1 - 0x80) * 0x40 + (b2 - 0x80))%N
          :: utf8_decode r2
      | _ => []
      end
    else
      match r0 with
      | b1 :: b2 :: b3 :: r3 =>
        ((b0 - 0xF0) * 0x40000 + (b1 - 0x80) * 0x1000
         + (b2 - 0x80) * 0x40 + (b3 - 0x80))%N :: utf8_decode r3
      | _ => []
      end
  end.

(** A string literal of the source. *)
Definition lit (s : string) : pystr :=
  utf8_decode (map N_of_ascii (list_ascii_of_string s)).

Definition LF : N := 10%N.

(** A literal that spans several source lines. *)
Fixpoint lines (ls : list pystr) : pystr :=
  match ls with
  | [] => []
  | [l] => l
  | l :: ls' => l ++ LF :: lines ls'
  end.

(** [str(n)] and [f"{n}"] for an [int]. *)
Definition str_of_int (z : Z) : pystr :=
  lit (NilZero.string_of_int (Z.to_int z)).

(** [needle in hay] *)
Fixpoint startswith (hay needle : pystr) : bool :=
  match needle, hay with
  | [], _ => true
  | _ :: _, [] => false
  | n :: needle', h :: hay' => (n =? h)%N && startswith hay' needle'
  end.

Fixpoint contains (needle hay : pystr) : bool :=
  startswith hay needle ||
  match hay with
  | [] => false
  | _ :: hay' => contains needle hay'
  end.

(** The empty [str] and the one-character [str] of a line feed. *)
Definition str_empty : pystr := [].
Definition NL : pystr := [LF].

(** Truthiness of a [str]: non-empty. *)
Definition truthy (s : pystr) : bool :=
  match s with [] => false | _ :: _ => true end.

End PyStr.
Import PyStr.

Arguments lit : simpl never.
Arguments lines : simpl never.

(** ** The Unicode character database

    [str.upper] maps every code point to its full upper-case mapping (one
    to three code points, context-free); [str.strip] and [str.split]
    use [str.isspace] on single code points. *)

Record unicode_db := UnicodeDb {
  to_upper : N -> pystr;
  is_space : N -> bool
}.

(** The ASCII part of the database, as CPython has it: [a-z] go to
    [A-Z]; the white space is TAB, LF, VT, FF, CR, FS, GS, RS, US and
    SPACE. *)
Definition ascii_upper (c : N) : N :=
  if ((97 <=? c) && (c <=? 122))%N then (c - 32)%N else c.

Definition ascii_space (c : N) : bool :=
  ((9 <=? c) && (c <=? 13) || (28 <=? c) && (c <=? 32))%N.

(** The database restricted to ASCII: every other code point is left
    alone by [upper] and is not white space. *)
Definition ascii_db : unicode_db :=
  {| to_upper := fun c => [ascii_upper c]; is_space := ascii_space |}.

Definition is_ascii (c : N) : Prop := (c < 128)%N.

#[global] Instance is_ascii_dec (c : N) : Decision (is_ascii c) :=
  decide (c < 128)%N.

Definition ascii_compatible (db : unicode_db) : Prop :=
  forall c, is_ascii c ->
    to_upper db c = [ascii_upper c] /\ is_space db c = ascii_space c.

(** Upper-casing never deletes a character, and it keeps white space
    white space and every other character another character. The
    Unicode database of CPython has this property: the white space are
    29 code points without case, and no case mapping yields one of
    them. *)
Definition upper_respects_space (db : unicode_db) : Prop :=
  forall c,
    to_upper db c <> []
    /\ Forall (fun d => is_space db d = is_space db c) (to_upper db c).

Section StrMethods.
Variable db : unicode_db.

(** [s.upper()] *)
Definition py_upper (s : pystr) : pystr := flat_map (to_upper db) s.

(** [s.lstrip()], [s.rstrip()], [s.strip()] *)
Fixpoint py_lstrip (s : pystr) : pystr :=
  match s with
  | [] => []
  | c :: s' => if is_space db c then py_lstrip s' else s
  end.

Definition py_rstrip (s : pystr) : pystr := rev (py_lstrip (rev s)).

Definition py_strip (s : pystr) : pystr := py_rstrip (py_lstrip s).

(** [s.split()]: the maximal runs of characters that are not white
    space, in order; [word] is the run being read. *)
Fixpoint split_from (word s : pystr) : list pystr :=
  match s with
  | [] => match word with [] => [] | _ :: _ => [word] end
  | c :: s' =>
    if is_space db c then
      match word with
      | [] => split_from [] s'
      | _ :: _ => word :: split_from [] s'
      end
    else split_from (word ++ [c]) s'
  end.

Definition py_split (s : pystr) : list pystr := split_from [] s.

End StrMethods.

(** ** Exceptions

    Only instances of [Exception] are modelled: they are what
    [except Exception] catches. *)

Record exn := Exn {
  exn_class : pystr;   (* the name of the exception's class *)
  exn_str : pystr      (* [str(e)] *)
}.

Inductive result (A : Type) : Type :=
| Ok (a : A)
| Raise (e : exn).
Arguments Ok {A} a.
Arguments Raise {A} e.

#[global] Instance result_ret : MRet result := fun A a => Ok a.
#[global] Instance result_bind : MBind result := fun A B f m =>
  match m with
  | Ok a => f a
  | Raise e => Raise e
  end.

(** [try: body / except Exception as e: handler(e)] *)
Definition try_except {A} (body : result A) (handler : exn -> result A) : result A :=
  match body with
  | Ok a => Ok a
  | Raise e => handler e
  end.

Definition returns {A} (r : result A) : Prop := exists a, r = Ok a.

(** [l[i]] on a list *)
Definition list_index {A} (l : list A) (i : nat) : result A :=
  match l !! i with
  | Some a => Ok a
  | None => Raise (Exn (lit "IndexError") (lit "list index out of range"))
  end.

(** ** The inference endpoint

    What one [session.post(OLLAMA_URL, json=payload)] meets: either the
    transport fails (connection refused, time-out, ...) or a reply with
    a status code arrives. [await reply.json()] either fails (the body is
    not JSON, wrong content type) or yields the decoded value. The
    decoded value is an object or a value of another type (a list, a
    number, [None] for an empty body), of which only the type's name is
    kept.

    A member of an object is any JSON value: [call_ollama] is annotated
    [-> str], but it returns the member [response] as it finds it. The
    code never looks at the type of what it was handed, so a value that
    is no string is kept by the two things the code can observe of it:
    the name of its type, which is in the message of the
    [AttributeError] that a method of [str] raises on it, and what
    [str()] makes of it, which is what an f-string shows. *)

Inductive pyval :=
| VStr (s : pystr)
| VOther (type_name : pystr) (text : pystr).

(** [f"{v}"]: the string itself, and [str(v)] of any other JSON value. *)
Definition py_str (v : pyval) : pystr :=
  match v with
  | VStr s => s
  | VOther _ text => text
  end.

(** The exception of a look-up of an attribute that the type of the
    value has not. *)
Definition no_attribute (type_name attribute : pystr) : exn :=
  Exn (lit "AttributeError")
      (lit "'" ++ type_name ++ lit "' object has no attribute '"
       ++ attribute ++ lit "'").

(** [v.method]: the look-up of a method of [str] on [v]. It finds the
    method on a string, which is then the receiver of the call; a value
    of another JSON type has no attribute of that name. *)
Definition str_method (method : pystr) (v : pyval) : result pystr :=
  match v with
  | VStr s => Ok s
  | VOther type_name _ => Raise (no_attribute type_name method)
  end.

Record payload := Payload {
  p_model : pystr;
  p_prompt : pystr;
  p_stream : bool
}.

Inductive json_value :=
| JObject (members : gmap pystr pyval)
| JOther (type_name : pystr).

Inductive json_body :=
| JsonParsed (v : json_value)
| JsonFault (e : exn).

Inductive exchange :=
| PostFault (e : exn)
| Reply (status : Z) (body : json_body).

(** A [ClientSession]: what happens to a request for a URL with a JSON
    payload. *)
Definition session := pystr -> payload -> exchange.

Definition session_post (s : session) (url : pystr) (json : payload)
  : result (Z * json_body) :=
  match s url json with
  | PostFault e => Raise e
  | Reply status body => Ok (status, body)
  end.

Definition response_json (body : json_body) : result json_value :=
  match body with
  | JsonParsed v => Ok v
  | JsonFault e => Raise e
  end.

(** [v.get(key, default)]: a [dict] method; any other value has no
    attribute [get]. *)
Definition py_get (v : json_value) (key : pystr) (default : pyval) : result pyval :=
  match v with
  | JObject members =>
    match members !! key with
    | Some x => Ok x
    | None => Ok default
    end
  | JOther type_name =>
    Raise (Exn (lit "AttributeError")
               (lit "'" ++ type_name ++ lit "' object has no attribute 'get'"))
  end.

(** ** [call_ollama]

    The two files define the same function over their own [MODEL]. *)

Module Client.

Definition OLLAMA_URL : pystr := lit "http://localhost:11434/api/generate".

Section WithModel.
Variable MODEL : pystr.

Definition call_ollama (s : session) (prompt : pystr) : result pyval :=
  let payload := Payload MODEL prompt false in
  try_except
    (ollama_response ← session_post s OLLAMA_URL payload;
     let '(status, body) := ollama_response in
     if (status =? 200)%Z then
       ollama_result ← response_json body;
       py_get ollama_result (lit "response") (VStr str_empty)
     else
       Ok (VStr (lit "Error: Status " ++ str_of_int status)))
    (fun e => Ok (VStr (lit "Error: " ++ exn_str e))).

End WithModel.

End Client.

(** ** [asyncio.gather]

    A coroutine settles once, at some moment: [c p] is what it settles
    with when it is the [p]-th of the gathered awaitables to settle.
    [order] lists the awaitables (by position in the argument list) in
    the order in which they settle. Each result is stored in the slot of
    its awaitable; the first exception is raised to the awaiting caller
    at once. [gather] answers [None] when the schedule ends with an
    awaitable that has not settled: the caller waits for ever. *)

Definition coroutine (A : Type) := nat -> result A.

Fixpoint settle {A} (tasks : list (coroutine A)) (p : nat) (order : list nat)
    (slots : list (option A)) : result (list (option A)) :=
  match order with
  | [] => Ok slots
  | i :: order' =>
    match tasks !! i with
    | None => settle tasks (S p) order' slots
    | Some c =>
      match c p with
      | Raise e => Raise e
      | Ok a => settle tasks (S p) order' (<[i := Some a]> slots)
      end
    end
  end.

Definition gather {A} (order : list nat) (tasks : list (coroutine A))
  : option (result (list A)) :=
  match settle tasks 0 order (replicate (length tasks) None) with
  | Raise e => Some (Raise e)
  | Ok slots => Ok <$> mapM id slots
  end.

(** [await aw] followed by the rest of an [async def] body. *)
Definition await_then {A B} (aw : option (result A)) (k : A -> result B)
  : option (result B) :=
  (fun r => r ≫= k) <$> aw.

(** Every awaitable settles exactly once. *)
Definition complete_schedule (n : nat) (order : list nat) : Prop :=
  Permutation order (seq 0 n).

(** ** [str.format]

    A format string, parsed: literal text and replacement fields.
    [t.format(name=value)] fills the fields called [name]; a field with
    another name has no argument. *)

Inductive segment :=
| Text (s : pystr)
| Field (name : pystr).

Definition template := list segment.

Fixpoint py_format (t : template) (name value : pystr) : result pystr :=
  match t with
  | [] => Ok str_empty
  | Text s :: t' => rest ← py_format t' name value; Ok (s ++ rest)
  | Field n :: t' =>
    if bool_decide (n = name) then
      rest ← py_format t' name value; Ok (value ++ rest)
    else Raise (Exn (lit "KeyError") (lit "'" ++ n ++ lit "'"))
  end.

(** ** Insertion-ordered dictionaries

    A [dict] whose order of keys is observed ([items()]): the pairs in
    the order in which their keys were first set. *)

Section OrderedDict.
Context {K V : Type} `{EqDecision K}.

(** [d.get(k, default)] *)
Fixpoint odict_get (d : list (K * V)) (k : K) (default : V) : V :=
  match d with
  | [] => default
  | (k', v) :: d' => if decide (k' = k) then v else odict_get d' k default
  end.

(** [d[k] = v] *)
Fixpoint odict_set (d : list (K * V)) (k : K) (v : V) : list (K * V) :=
  match d with
  | [] => [(k, v)]
  | (k', v') :: d' =>
    if decide (k' = k) then (k, v) :: d' else (k', v') :: odict_set d' k v
  end.

End OrderedDict.

(** [max(l, key=key)]: the first of the elements with the greatest key. *)
Fixpoint max_from {A} (key : A -> nat) (best : A) (l : list A) : A :=
  match l with
  | [] => best
  | x :: l' => max_from key (if key best <? key x then x else best) l'
  end.

Definition py_max {A} (key : A -> nat) (l : list A) : result A :=
  match l with
  | [] => Raise (Exn (lit "ValueError") (lit "max() arg is an empty sequence"))
  | x :: l' => Ok (max_from key x l')
  end.

(** ** voting.py *)

Module Voting.

Definition MODEL : pystr := lit "gemma:3b".

Definition SENTIMENT_PROMPTS : list template :=
  [ [Text (lines [lit "Analyze the sentiment of the following text. Respond with ONLY one word: POSITIVE, NEGATIVE, or NEUTRAL.";
                 lit "    Text: "]);
     Field (lit "text")];
    [Text (lines [lit "What is the emotional tone of this text? Reply with a single word only: POSITIVE, NEGATIVE, or NEUTRAL.";
                 lit "    Text: "]);
     Field (lit "text")];
    [Text (lines [lit "Classify the sentiment expressed in this text as either POSITIVE, NEGATIVE, or NEUTRAL. ";
                 lit "    Respond with only the classification word.";
                 lit "    Text: "]);
     Field (lit "text")] ].

Definition call_ollama : session -> pystr -> result pyval :=
  Client.call_ollama MODEL.

Definition POSITIVE : pystr := lit "POSITIVE".
Definition NEGATIVE : pystr := lit "NEGATIVE".
Definition NEUTRAL : pystr := lit "NEUTRAL".
Definition UNABLE_TO_DETERMINE : pystr := lit "UNABLE TO DETERMINE".

Section WithDb.
Variable db : unicode_db.

(** The first loop: a coroutine per prompt. [net p] is the session as it
    behaves at the [p]-th settlement. *)
Fixpoint make_tasks (net : nat -> session) (text : pystr)
    (templates : list template) (tasks : list (coroutine pyval))
  : result (list (coroutine pyval)) :=
  match templates with
  | [] => Ok tasks
  | prompt_template :: templates' =>
    prompt ← py_format prompt_template (lit "text") text;
    make_tasks net text templates' (tasks ++ [fun p => call_ollama (net p) prompt])
  end.

(** [sa_response.strip().upper()], once [strip] is found: on a
    string. *)
Definition sentiment_of (sa_response : pystr) : pystr :=
  py_upper db (py_strip db sa_response).

(** The body of the second loop: [sa_votes] after one response. The
    response is what [call_ollama] returned; [sa_response.strip] raises
    on one that is no string, and nothing in the loop catches it. *)
Definition clean_vote (sa_votes : list pystr) (sa_response : pyval)
  : result (list pystr) :=
  receiver ← str_method (lit "strip") sa_response;
  let sa_sentiment := sentiment_of receiver in
  if contains POSITIVE sa_sentiment then Ok (sa_votes ++ [POSITIVE])
  else if contains NEGATIVE sa_sentiment then Ok (sa_votes ++ [NEGATIVE])
  else if contains NEUTRAL sa_sentiment then Ok (sa_votes ++ [NEUTRAL])
  else
    first_word ← (if truthy sa_sentiment
                  then list_index (py_split db sa_sentiment) 0
                  else Ok str_empty);
    if bool_decide (first_word ∈ [POSITIVE; NEGATIVE; NEUTRAL])
    then Ok (sa_votes ++ [first_word])
    else Ok sa_votes.

Fixpoint clean_votes (sa_votes : list pystr) (responses : list pyval)
  : result (list pystr) :=
  match responses with
  | [] => Ok sa_votes
  | sa_response :: responses' =>
    sa_votes' ← clean_vote sa_votes sa_response;
    clean_votes sa_votes' responses'
  end.

(** The third loop: [sa_vote_counts] after the votes. *)
Fixpoint count_votes (sa_vote_counts : list (pystr * nat)) (sa_votes : list pystr)
  : list (pystr * nat) :=
  match sa_votes with
  | [] => sa_vote_counts
  | sa_vote :: sa_votes' =>
    count_votes
      (odict_set sa_vote_counts sa_vote (odict_get sa_vote_counts sa_vote 0 + 1))
      sa_votes'
  end.

(** From "Determine winner by majority vote" to the [return]s. *)
Definition determine_winner (sa_votes : list pystr) : result (pystr * list pystr) :=
  match sa_votes with
  | _ :: _ =>
    let sa_vote_counts := count_votes [] sa_votes in
    best ← py_max snd sa_vote_counts;
    Ok (fst best, sa_votes)
  | [] => Ok (UNABLE_TO_DETERMINE, sa_votes)
  end.

(** The responses as [asyncio.gather] hands them over. *)
Definition gather_responses (net : nat -> session) (order : list nat) (text : pystr)
  : option (result (list pyval)) :=
  match make_tasks net text SENTIMENT_PROMPTS [] with
  | Raise e => Some (Raise e)
  | Ok tasks => gather order tasks
  end.

Definition analyze_sentiment_voting (net : nat -> session) (order : list nat)
    (text : pystr) : option (result (pystr * list pystr)) :=
  await_then (gather_responses net order text) (fun responses =>
    sa_votes ← clean_votes [] responses;
    determine_winner sa_votes).

End WithDb.

End Voting.

(** ** The clock

    [datetime.now()] reads the local clock. Of [strftime] the directives
    of the source are modelled: [%B] (the month's name, in the C locale a
    script starts in), [%d] (the day, two digits) and [%Y] (the year, in
    decimal: the clock reads years of four digits). *)

Inductive month :=
| January | February | March | April | May | June
| July | August | September | October | November | December.

Record datetime := Datetime {
  dt_year : Z;
  dt_month : month;
  dt_day : Z;
  dt_hour : Z;
  dt_minute : Z;
  dt_second : Z;
  dt_microsecond : Z
}.

(** The calendar date of a reading. *)
Definition date_of (now : datetime) : Z * month * Z :=
  (dt_year now, dt_month now, dt_day now).

Definition month_name (m : month) : pystr :=
  match m with
  | January => lit "January" | February => lit "February"
  | March => lit "March" | April => lit "April"
  | May => lit "May" | June => lit "June"
  | July => lit "July" | August => lit "August"
  | September => lit "September" | October => lit "October"
  | November => lit "November" | December => lit "December"
  end.

Definition two_digits (n : Z) : pystr :=
  if (n <? 10)%Z then lit "0" ++ str_of_int n else str_of_int n.

(** [now.strftime('%B %d, %Y')] *)
Definition strftime_B_d_Y (now : datetime) : pystr :=
  month_name (dt_month now) ++ lit " " ++ two_digits (dt_day now)
  ++ lit ", " ++ str_of_int (dt_year now).

(** ** sectioning.py *)

Module Sectioning.

Definition MODEL : pystr := lit "gemma3".

Definition SECTION_PROMPTS : list (pystr * template) :=
  [ (lit "headlines",
     [Text (lit "Generate 3-4 attention-grabbing headlines about ");
      Field (lit "topic");
      Text (lines [lit " in AI. ";
                  lit "    Format as a bullet list. Be concise and impactful. Focus on recent developments and breakthroughs.  List your sources as links. ";
                  lit "    IMPORTANT: Provide ONLY the requested headlines. Do not add any questions, offers for more content, or additional commentary"])]);
    (lit "technical_deep_dive",
     [Text (lit "Write a technical deep dive section about ");
      Field (lit "topic");
      Text (lines [lit " in AI.";
                  lit "    Include technical details, architecture, algorithms, or implementation details.";
                  lit "    Keep it informative but accessible. About 2-3 paragraphs.";
                  lit "    IMPORTANT: Provide ONLY the technical content. Do not add any questions, offers for more information, or additional commentary."])]);
    (lit "industry_news",
     [Text (lit "Write about recent industry news and business developments related to ");
      Field (lit "topic");
      Text (lines [lit " in AI.";
                  lit "    Include company announcements, partnerships, investments, or market trends.";
                  lit "    Format as 2-3 short news items.";
                  lit "    IMPORTANT: Provide ONLY the news content. Do not add any questions, offers for more content, or additional commentary."])]);
    (lit "tools_resources",
     [Text (lit "List 3-5 practical tools, libraries, or resources related to ");
      Field (lit "topic");
      Text (lines [lit " in AI.";
                  lit "    Include brief descriptions and why they're useful. Format as a bullet list.";
                  lit "    IMPORTANT: Provide ONLY the tools and resources list. Do not add any questions, offers for more suggestions, or additional commentary"])]);
    (lit "opinion_analysis",
     [Text (lit "Provide thoughtful analysis and future outlook on ");
      Field (lit "topic");
      Text (lines [lit " in AI.";
                  lit "    Include potential impacts, challenges, and opportunities. Write 1-2 paragraphs with forward-looking perspective.";
                  lit "    IMPORTANT: Provide ONLY the analysis. Do not add any questions, offers for more perspectives, or additional commentary."])]) ].

Definition call_ollama : session -> pystr -> result pyval :=
  Client.call_ollama MODEL.

(** The first loop: a coroutine and a section name per entry of
    [SECTION_PROMPTS], in the order of the entries. [net p] is the
    session as it behaves at the [p]-th settlement. *)
Fixpoint make_tasks (net : nat -> session) (user_topic : pystr)
    (items : list (pystr * template))
    (tasks : list (coroutine pyval)) (section_names : list pystr)
  : result (list (coroutine pyval) * list pystr) :=
  match items with
  | [] => Ok (tasks, section_names)
  | (prompt_section, prompt_template) :: items' =>
    prompt ← py_format prompt_template (lit "topic") user_topic;
    make_tasks net user_topic items'
      (tasks ++ [fun p => call_ollama (net p) prompt])
      (section_names ++ [prompt_section])
  end.

(** The second loop: [results[result_section] = result] over the zip. *)
Fixpoint combine_results (results : gmap pystr pyval)
    (pairs : list (pystr * pyval)) : gmap pystr pyval :=
  match pairs with
  | [] => results
  | (result_section, result) :: pairs' =>
    combine_results (<[result_section := result]> results) pairs'
  end.

Definition generate_newsletter_sections (net : nat -> session)
    (order : list nat) (user_topic : pystr)
  : option (result (gmap pystr pyval)) :=
  match make_tasks net user_topic SECTION_PROMPTS [] [] with
  | Raise e => Some (Raise e)
  | Ok (tasks, section_names) =>
    await_then (gather order tasks) (fun responses =>
      Ok (combine_results ∅ (zip section_names responses)))
  end.

(** [{topic_sections.get(key, default)}] in the f-string: the value of
    the mapping, or the default, as [str()] shows it. *)
Definition sections_get (topic_sections : gmap pystr pyval) (key default : pystr)
  : pystr :=
  py_str (match topic_sections !! key with
          | Some v => v
          | None => VStr default
          end).

Definition format_newsletter (now : datetime) (user_topic : pystr)
    (topic_sections : gmap pystr pyval) : pystr :=
  lit "# AI Newsletter: " ++ user_topic ++ NL
  ++ lit "*Generated on " ++ strftime_B_d_Y now ++ lit "*" ++ NL
  ++ NL
  ++ lit "---" ++ NL
  ++ NL
  ++ lit "## 📰 Headlines" ++ NL
  ++ NL
  ++ sections_get topic_sections (lit "headlines") (lit "No headlines generated.") ++ NL
  ++ NL
  ++ lit "---" ++ NL
  ++ NL
  ++ lit "## 🔬 Technical Deep Dive" ++ NL
  ++ NL
  ++ sections_get topic_sections (lit "technical_deep_dive") (lit "No technical content generated.") ++ NL
  ++ NL
  ++ lit "---" ++ NL
  ++ NL
  ++ lit "## 🏢 Industry News" ++ NL
  ++ NL
  ++ sections_get topic_sections (lit "industry_news") (lit "No industry news generated.") ++ NL
  ++ NL
  ++ lit "---" ++ NL
  ++ NL
  ++ lit "## 🛠️ Tools & Resources" ++ NL
  ++ NL
  ++ sections_get topic_sections (lit "tools_resources") (lit "No tools/resources generated.") ++ NL
  ++ NL
  ++ lit "---" ++ NL
  ++ NL
  ++ lit "## 💭 Analysis & Outlook" ++ NL
  ++ NL
  ++ sections_get topic_sections (lit "opinion_analysis") (lit "No analysis generated.") ++ NL
  ++ NL
  ++ lit "---" ++ NL
  ++ NL
  ++ lit "*This newsletter was generated using parallel AI processing, with each section created simultaneously by separate LLM instances.*" ++ NL.

End Sectioning.

(** * Contracts

    The properties of the specification that are shared by the two
    files, as predicates over their functions. *)

(** The contract of the inference client [call] that sends [model]:
    what it answers, by what the request meets. *)
Definition client_contract (model : pystr)
    (call : session -> pystr -> result pyval) : Prop :=
  forall (s : session) (prompt : pystr),
    let met := s Client.OLLAMA_URL (Payload model prompt false) in
    (forall members, met = Reply 200 (JsonParsed (JObject members)) ->
       call s prompt =
       Ok (match members !! lit "response" with
           | Some r => r
           | None => VStr str_empty
           end))
    /\ (forall type_name, met = Reply 200 (JsonParsed (JOther type_name)) ->
       call s prompt =
       Ok (VStr (lit "Error: " ++ lit "'" ++ type_name
                 ++ lit "' object has no attribute 'get'")))
    /\ (forall e, met = Reply 200 (JsonFault e) ->
       call s prompt = Ok (VStr (lit "Error: " ++ exn_str e)))
    /\ (forall status body, met = Reply status body -> status <> 200%Z ->
       call s prompt = Ok (VStr (lit "Error: Status " ++ str_of_int status)))
    /\ (forall e, met = PostFault e ->
       call s prompt = Ok (VStr (lit "Error: " ++ exn_str e)))
    /\ returns (call s prompt).

(** The coroutines of a list of prompts, as both files build them: one
    call of the client per prompt, over the session as it behaves when
    the call settles. *)
Definition calls (call : session -> pystr -> result pyval) (net : nat -> session)
    (prompts : list pystr) : list (coroutine pyval) :=
  map (fun prompt p => call (net p) prompt) prompts.

(** The fan-out of voting.py keeps the order of the prompts: it hands
    over one response per prompt template, and the response in place [i]
    is what the client returned for the [i]-th prompt, at the moment [k]
    at which that call settled. *)
Definition voting_fan_out_ordered (net : nat -> session) (order : list nat)
    (text : pystr) : Prop :=
  exists responses,
    Voting.gather_responses net order text = Some (Ok responses)
    /\ length responses = length Voting.SENTIMENT_PROMPTS
    /\ forall k i t, order !! k = Some i -> Voting.SENTIMENT_PROMPTS !! i = Some t ->
         exists prompt r,
           py_format t (lit "text") text = Ok prompt
           /\ Voting.call_ollama (net k) prompt = Ok r
           /\ responses !! i = Some r.


(** A session for the examples: the first call to settle meets a refused
    connection, the second status 503, every later one an answer that
    repeats the prompt. *)
Definition skewed_net (p : nat) : session :=
  fun _ json =>
    match p with
    | 0 => PostFault (Exn (lit "ClientConnectorError") (lit "Connection refused"))
    | 1 => Reply 503 (JsonFault (Exn (lit "ContentTypeError") (lit "unexpected mimetype")))
    | _ => Reply 200 (JsonParsed (JObject {[ lit "response" := VStr (p_prompt json) ]}))
    end.

(** ** The vote, in the words of the specification *)

Definition labels : list pystr :=
  [Voting.POSITIVE; Voting.NEGATIVE; Voting.NEUTRAL].

(** The first of the labels, in the order POSITIVE, NEGATIVE, NEUTRAL,
    that the string contains. *)
Definition first_label_in (s : pystr) : option pystr :=
  find (fun l => contains l s) labels.

(** The classifier as the specification words it: uppercase and trim the
    response; the first label contained wins; with no label contained,
    the first whitespace-delimited token when it is one of the labels;
    otherwise nothing. *)
Definition classify_spec (db : unicode_db) (response : pystr) : option pystr :=
  let normalized := py_strip db (py_upper db response) in
  match first_label_in normalized with
  | Some l => Some l
  | None =>
    match py_split db normalized with
    | first_token :: _ =>
      if bool_decide (first_token ∈ labels) then Some first_token else None
    | [] => None
    end
  end.

(** How often a label occurs among the votes. *)
Definition occurrences (l : pystr) (votes : list pystr) : nat :=
  length (filter (fun v => v = l) votes).

(** The distinct votes in the order in which they are first met. *)
Fixpoint first_met (votes : list pystr) : list pystr :=
  match votes with
  | [] => []
  | v :: votes' => v :: filter (fun l => l <> v) (first_met votes')
  end.

(** A session that answers the call that settles at moment [p] with
    status 200 and an object whose member [response] is the [p]-th of
    the given values. *)
Definition value_net (values : list pyval) (p : nat) : session :=
  fun _ _ =>
    Reply 200 (JsonParsed (JObject
      {[ lit "response" :=
           match values !! p with Some v => v | None => VStr str_empty end ]})).

(** The same for responses that are strings. *)
Definition mock_net (responses : list pystr) : nat -> session :=
  value_net (VStr <$> responses).

(** [null] as the code meets it. *)
Definition py_None : pyval := VOther (lit "NoneType") (lit "None").

(** ** The newsletter, in the words of the specification *)

(** The placeholder of a section without result. *)
Definition placeholder (what : pystr) : pystr :=
  lit "No " ++ what ++ lit " generated.".

(** The sections in the order of the document: the identity of the
    section, its heading, and what its placeholder names. *)
Definition SECTION_SLOTS : list (pystr * pystr * pystr) :=
  [ (lit "headlines", lit "## 📰 Headlines", lit "headlines");
    (lit "technical_deep_dive", lit "## 🔬 Technical Deep Dive", lit "technical content");
    (lit "industry_news", lit "## 🏢 Industry News", lit "industry news");
    (lit "tools_resources", lit "## 🛠️ Tools & Resources", lit "tools/resources");
    (lit "opinion_analysis", lit "## 💭 Analysis & Outlook", lit "analysis") ].

(** What stands in the slot of a section: its result, verbatim (as
    [str()] shows it, when it is no string), or the placeholder. *)
Definition section_slot (topic_sections : gmap pystr pyval)
    (name what : pystr) : pystr :=
  match topic_sections !! name with
  | Some text => py_str text
  | None => placeholder what
  end.

(** A heading, a blank line, the body, a blank line, a rule, a blank
    line. *)
Definition section_block (heading body : pystr) : pystr :=
  heading ++ NL ++ NL ++ body ++ NL ++ NL ++ lit "---" ++ NL ++ NL.

Definition title_block (date user_topic : pystr) : pystr :=
  lit "# AI Newsletter: " ++ user_topic ++ NL
  ++ lit "*Generated on " ++ date ++ lit "*" ++ NL ++ NL ++ lit "---" ++ NL ++ NL.

Definition closing_note : pystr :=
  lit "*This newsletter was generated using parallel AI processing, with each section created simultaneously by separate LLM instances.*" ++ NL.

Definition section_blocks (topic_sections : gmap pystr pyval) : list pystr :=
  map (fun '(name, heading, what) =>
         section_block heading (section_slot topic_sections name what))
      SECTION_SLOTS.

(** Two readings of the clock for the examples: the same day, and the
    day after. *)
Definition morning : datetime := Datetime 2026 March 5 8 30 0 0.
Definition evening : datetime := Datetime 2026 March 5 21 15 42 7.
Definition next_day : datetime := Datetime 2026 March 6 8 30 0 0.

(** A character of a decimal numeral: a digit or the sign. *)
Definition is_numeral_char (c : N) : Prop :=
  c = 45%N \/ (48 <= c <= 57)%N.

(** ** The sidebar: Test Ollama Connection

    The block under [st.button("Test Ollama Connection")], the same in
    both files. It shows elements on the page and may raise half-way: a
    computation takes the elements shown so far and gives the elements
    shown after it with its result, so what was shown before an exception
    stays shown. *)

Inductive element :=
| StSuccess (body : pystr)
| StWrite (body : pystr)
| StError (body : pystr).

Definition ui (A : Type) : Type := list element -> list element * result A.

#[global] Instance ui_ret : MRet ui := fun A a shown => (shown, Ok a).
#[global] Instance ui_bind : MBind ui := fun A B f m shown =>
  match m shown with
  | (shown', Ok a) => f a shown'
  | (shown', Raise e) => (shown', Raise e)
  end.

(** [st.success(body)], [st.write(body)], [st.error(body)] *)
Definition st_show (e : element) : ui unit := fun shown => (shown ++ [e], Ok tt).

(** A step that shows nothing. *)
Definition ui_lift {A} (r : result A) : ui A := fun shown => (shown, r).

(** [try: body / except: handler], the bare [except]. *)
Definition try_except_all (body handler : ui unit) : ui unit := fun shown =>
  match body shown with
  | (shown', Ok a) => (shown', Ok a)
  | (shown', Raise _) => handler shown'
  end.

(** The body of the reply of [/api/tags], decoded. The value is an
    object, of which the member [models] is kept (a list, when present),
    or a value without [get], of which the exception of [.get] is kept.
    An element of the list is an object, or a value that
    [model['name']] cannot subscript, of which the exception is kept. *)
Inductive model_json :=
| ModelObject (members : gmap pystr pyval)
| ModelOther (e : exn).

Inductive tags_json :=
| TagsObject (models : option (list model_json))
| TagsOther (e : exn).

Inductive tags_body :=
| TagsParsed (v : tags_json)
| TagsFault (e : exn).

(** What [requests.get(url, timeout=...)] meets. *)
Inductive get_outcome :=
| GetFault (e : exn)
| GetReply (status_code : Z) (body : tags_body).

Definition requests_get (get : pystr -> Z -> get_outcome) (url : pystr) (timeout : Z)
  : result (Z * tags_body) :=
  match get url timeout with
  | GetFault e => Raise e
  | GetReply status_code body => Ok (status_code, body)
  end.

Definition tags_response_json (body : tags_body) : result tags_json :=
  match body with
  | TagsParsed v => Ok v
  | TagsFault e => Raise e
  end.

(** [v.get("models", [])] *)
Definition get_models (v : tags_json) : result (list model_json) :=
  match v with
  | TagsObject (Some models) => Ok models
  | TagsObject None => Ok []
  | TagsOther e => Raise e
  end.

(** [{model['name']}] in the f-string: the member, as [str()] shows
    it. *)
Definition model_name (model : model_json) : result pystr :=
  match model with
  | ModelObject members =>
    match members !! lit "name" with
    | Some name => Ok (py_str name)
    | None => Raise (Exn (lit "KeyError") (lit "'name'"))
    end
  | ModelOther e => Raise e
  end.

(** [for model in models: st.write(f"- {model['name']}")] *)
Fixpoint write_models (models : list model_json) : ui unit :=
  match models with
  | [] => mret tt
  | model :: models' =>
    name ← ui_lift (model_name model);
    _ ← st_show (StWrite (lit "- " ++ name));
    write_models models'
  end.

Definition RUNNING : pystr := lit "✅ Ollama is running!".
Definition RESPONDED_WITH_ERROR : pystr := lit "❌ Ollama responded but with an error".
Definition CANNOT_CONNECT : pystr :=
  lit "❌ Cannot connect to Ollama. Make sure it's running!".

(** The block. [import_requests] is what [import requests] does. *)
Definition test_ollama_connection (import_requests : result unit)
    (get : pystr -> Z -> get_outcome) : ui unit :=
  try_except_all
    (_ ← ui_lift import_requests;
     response ← ui_lift (requests_get get (lit "http://localhost:11434/api/tags") 5);
     let '(status_code, body) := response in
     if (status_code =? 200)%Z then
       _ ← st_show (StSuccess RUNNING);
       v ← ui_lift (tags_response_json body);
       models ← ui_lift (get_models v);
       match models with
       | _ :: _ =>
         _ ← st_show (StWrite (lit "Available models:"));
         write_models models
       | [] => mret tt
       end
     else st_show (StError RESPONDED_WITH_ERROR))
    (st_show (StError CANNOT_CONNECT)).

(** A reply of [/api/tags] that lists the given names. *)
Definition tags_reply (names : list pystr) : get_outcome :=
  GetReply 200 (TagsParsed (TagsObject (Some
    (map (fun name => ModelObject {[ lit "name" := VStr name ]}) names)))).

(** The line of a model in the list of the sidebar. *)
Definition model_line (name : pystr) : element := StWrite (lit "- " ++ name).

(** The names of the models up to the first one that has no name, and
    the exception that asking for that name raises. *)
Fixpoint named_prefix (models : list model_json) : list pystr * option exn :=
  match models with
  | [] => ([], None)
  | model :: models' =>
    match model_name model with
    | Ok name => (name :: (named_prefix models').1, (named_prefix models').2)
    | Raise e => ([], Some e)
    end
  end.

(** A reply with status 200 that the block cannot read to its end: the
    body is not JSON, or no object, or one of the listed models has no
    name. *)
Definition malformed (body : tags_body) : Prop :=
  match body with
  | TagsFault _ => True
  | TagsParsed (TagsOther _) => True
  | TagsParsed (TagsObject None) => False
  | TagsParsed (TagsObject (Some models)) => is_Some (named_prefix models).2
  end.

#[global] Instance malformed_dec (body : tags_body) : Decision (malformed body) :=
  match body as b return Decision (malformed b) with
  | TagsFault _ => left I
  | TagsParsed (TagsOther _) => left I
  | TagsParsed (TagsObject None) => right (fun H : False => H)
  | TagsParsed (TagsObject (Some models)) => decide (is_Some (named_prefix models).2)
  end.

(** ** The votes on the page of voting.py *)

(** [st.write(f"Analyzer {i}: **{vote}**")] *)
Definition analyzer_line (i : Z) (vote : pystr) : element :=
  StWrite (lit "Analyzer " ++ str_of_int i ++ lit ": **" ++ vote ++ lit "**").

(** [for i, vote in enumerate(votes, start): st.write(...)] *)
Fixpoint write_votes (start : Z) (votes : list pystr) : list element :=
  match votes with
  | [] => []
  | vote :: votes' => analyzer_line start vote :: write_votes (start + 1) votes'
  end.

(** * Properties *)

(** ** Sanity checks of the string model *)

Example lit_ascii : lit "Error: " = [69; 114; 114; 111; 114; 58; 32]%N.
Proof. reflexivity. Qed.

Example lit_emoji : lit "📰🛠️" = [0x1F4F0; 0x1F6E0; 0xFE0F]%N.
Proof. reflexivity. Qed.

Example str_of_int_404 : str_of_int 404 = lit "404".
Proof. reflexivity. Qed.

Example str_of_int_0 : str_of_int 0 = lit "0".
Proof. reflexivity. Qed.

Example str_of_int_neg : str_of_int (-7) = lit "-7".
Proof. reflexivity. Qed.

Example strip_upper_ex :
  py_upper ascii_db (py_strip ascii_db (lit "  positive please
 ")) = lit "POSITIVE PLEASE".
Proof. reflexivity. Qed.

Example split_ex :
  py_split ascii_db (lit " not  sure	yet ") = [lit "not"; lit "sure"; lit "yet"].
Proof. reflexivity. Qed.

Example split_blank : py_split ascii_db (lit "   ") = [].
Proof. reflexivity. Qed.

Example call_ollama_404 :
  Client.call_ollama (lit "gemma3") (fun _ _ => Reply 404 (JsonFault (Exn [] []))) (lit "hi")
  = Ok (VStr (lit "Error: Status 404")).
Proof. reflexivity. Qed.

Example call_ollama_refused :
  Client.call_ollama (lit "gemma3")
    (fun _ _ => PostFault (Exn (lit "ClientConnectorError") (lit "refused")))
    (lit "hi")
  = Ok (VStr (lit "Error: refused")).
Proof. reflexivity. Qed.

Example call_ollama_ok :
  Client.call_ollama (lit "gemma3")
    (fun _ _ => Reply 200 (JsonParsed (JObject {[ lit "response" := VStr (lit "R1") ]})))
    (lit "hi")
  = Ok (VStr (lit "R1")).
Proof. vm_compute. reflexivity. Qed.

Example call_ollama_null :
  Client.call_ollama (lit "gemma3")
    (fun _ _ => Reply 200 (JsonParsed (JObject {[ lit "response" := py_None ]})))
    (lit "hi")
  = Ok py_None.
Proof. vm_compute. reflexivity. Qed.

Example gather_skewed :
  gather [2; 0; 1] [(fun p => Ok (10 + p)); (fun p => Ok (20 + p)); (fun p => Ok (30 + p))]
  = Some (Ok [11; 22; 30]).
Proof. reflexivity. Qed.

Example gather_raises :
  gather [1; 0] [(fun _ => Ok 1); (fun _ => Raise (Exn [] []))]
  = Some (Raise (Exn [] [])).
Proof. reflexivity. Qed.

Example gather_pending : gather [1] [(fun _ => Ok 1); (fun _ => Ok 2)] = None.
Proof. reflexivity. Qed.

(** ** Strings: containment, stripping, splitting *)

Lemma startswith_spec (needle hay : pystr) :
  startswith hay needle = true <-> exists rest, hay = needle ++ rest.
Proof.
  revert hay. induction needle as [|n needle IH]; intros hay; simpl.
  - split; [intros _; by exists hay | by destruct hay].
  - destruct hay as [|h hay]; simpl.
    + split; [done | intros [rest Hrest]; discriminate].
    + rewrite andb_true_iff, N.eqb_eq, IH. split.
      * intros [-> [rest ->]]. by exists rest.
      * intros [rest Hrest]. injection Hrest as -> ->. split; [done | by exists rest].
Qed.

Lemma contains_spec (needle hay : pystr) :
  contains needle hay = true <-> exists before after, hay = before ++ needle ++ after.
Proof.
  induction hay as [|h hay IH].
  - cbn [contains]. rewrite orb_false_r, startswith_spec. split.
    + intros [rest Hrest]. by exists [], rest.
    + intros [before [after Heq]].
      destruct before; [by exists after|discriminate].
  - cbn [contains]. rewrite orb_true_iff, startswith_spec, IH. split.
    + intros [[rest Hrest] | [before [after Heq]]].
      * by exists [], rest.
      * exists (h :: before), after. by rewrite Heq.
    + intros [before [after Heq]]. destruct before as [|b before].
      * left. by exists after.
      * right. injection Heq as -> ->. by exists before, after.
Qed.

Lemma contains_app (needle before after : pystr) :
  contains needle (before ++ needle ++ after) = true.
Proof. apply contains_spec. by exists before, after. Qed.

Section StrFacts.
Variable db : unicode_db.

Lemma py_lstrip_head (s : pystr) :
  py_lstrip db s = [] \/
  exists c s', py_lstrip db s = c :: s' /\ is_space db c = false.
Proof.
  induction s as [|c s IH]; simpl; [by left|].
  destruct (is_space db c) eqn:Hc; [done|].
  right. by exists c, s.
Qed.

Lemma py_lstrip_snoc (s : pystr) (c : N) :
  is_space db c = false ->
  exists s', py_lstrip db (s ++ [c]) = s' ++ [c].
Proof.
  intros Hc. induction s as [|d s IH]; simpl.
  - rewrite Hc. by exists [].
  - destruct (is_space db d); [done|]. by exists (d :: s).
Qed.

Lemma py_rstrip_head (c : N) (s : pystr) :
  is_space db c = false ->
  exists s', py_rstrip db (c :: s) = c :: s'.
Proof.
  intros Hc. unfold py_rstrip. simpl.
  destruct (py_lstrip_snoc (rev s) c Hc) as [s' ->].
  exists (rev s'). by rewrite rev_app_distr.
Qed.

(** A stripped string is empty or starts with a character that is not
    white space. *)
Lemma py_strip_head (s : pystr) :
  py_strip db s = [] \/
  exists c s', py_strip db s = c :: s' /\ is_space db c = false.
Proof.
  unfold py_strip.
  destruct (py_lstrip_head s) as [-> | (c & s' & -> & Hc)]; [by left|].
  right. destruct (py_rstrip_head c s' Hc) as [s'' ->]. by exists c, s''.
Qed.

Lemma split_from_word (word s : pystr) :
  word <> [] -> split_from db word s <> [].
Proof.
  revert word. induction s as [|c s IH]; intros word Hword; simpl.
  - by destruct word.
  - destruct (is_space db c).
    + by destruct word.
    + apply IH. by destruct word.
Qed.

(** A string that starts with a character that is not white space has a
    first word. *)
Lemma py_split_head (c : N) (s : pystr) :
  is_space db c = false -> py_split db (c :: s) <> [].
Proof.
  intros Hc. unfold py_split. simpl. rewrite Hc. by apply split_from_word.
Qed.

(** Every word of a split is a part of the string. *)
Lemma split_from_contains (word s : pystr) (w : pystr) :
  w ∈ split_from db word s ->
  exists before after, word ++ s = before ++ w ++ after.
Proof.
  revert word. induction s as [|c s IH]; intros word Hw; simpl in Hw.
  - destruct word as [|x word]; [by apply elem_of_nil in Hw|].
    apply list_elem_of_singleton in Hw as ->.
    exists [], []. by rewrite !app_nil_r.
  - destruct (is_space db c).
    + destruct word as [|x word].
      * destruct (IH [] Hw) as (before & after & Heq). simpl in Heq.
        exists (c :: before), after. simpl. by rewrite Heq.
      * apply elem_of_cons in Hw as [-> | Hw].
        -- by exists [], (c :: s).
        -- destruct (IH [] Hw) as (before & after & Heq). simpl in Heq.
           exists ((x :: word) ++ c :: before), after.
           rewrite Heq. by rewrite <- !app_assoc.
    + destruct (IH _ Hw) as (before & after & Heq).
      exists before, after. rewrite <- Heq. by rewrite <- app_assoc.
Qed.

Lemma py_split_contains (s w : pystr) :
  w ∈ py_split db s -> contains w s = true.
Proof.
  intros Hw. apply contains_spec.
  destruct (split_from_contains [] s w Hw) as (before & after & Heq).
  by exists before, after.
Qed.

Lemma py_upper_head (c : N) (s : pystr) :
  upper_respects_space db -> is_space db c = false ->
  exists d s', py_upper db (c :: s) = d :: s' /\ is_space db d = false.
Proof.
  intros Hdb Hc. destruct (Hdb c) as [Hne Hall].
  unfold py_upper. simpl.
  destruct (to_upper db c) as [|d u]; [done|].
  exists d, (u ++ flat_map (to_upper db) s). split; [done|].
  apply Forall_cons in Hall as [Hd _]. congruence.
Qed.

End StrFacts.

(** ** The inference client *)

Section ClientFacts.
Variable MODEL : pystr.

Lemma call_ollama_returns (s : session) (prompt : pystr) :
  returns (Client.call_ollama MODEL s prompt).
Proof.
  unfold Client.call_ollama, session_post.
  destruct (s _ _) as [e | status body]; simpl; [by eexists|].
  destruct (status =? 200)%Z; [|by eexists].
  destruct body as [[members | type_name] | e]; simpl; [|by eexists..].
  destruct (members !! _); by eexists.
Qed.

Lemma call_ollama_contract : client_contract MODEL (Client.call_ollama MODEL).
Proof.
  intros s prompt met. repeat split.
  - intros members Hmet. unfold Client.call_ollama, session_post.
    fold met. rewrite Hmet. simpl. by destruct (members !! _).
  - intros type_name Hmet. unfold Client.call_ollama, session_post.
    fold met. by rewrite Hmet.
  - intros e Hmet. unfold Client.call_ollama, session_post.
    fold met. by rewrite Hmet.
  - intros status body Hmet Hstatus. unfold Client.call_ollama, session_post.
    fold met. rewrite Hmet. simpl.
    by destruct (Z.eqb_spec status 200).
  - intros e Hmet. unfold Client.call_ollama, session_post.
    fold met. by rewrite Hmet.
  - apply call_ollama_returns.
Qed.

End ClientFacts.

(** C4, amended. [call_ollama], in voting.py and in sectioning.py alike:
    on status 200 with a body that decodes to a JSON object it returns
    the member [response] of the object as it is, the empty string when
    the object has no such member; on status 200 with a body that
    decodes to another value, or that cannot be decoded, it returns
    [Error: ] followed by the message of the exception; on any other
    status it returns [Error: Status] followed by the code; when the
    request raises, it returns [Error: ] followed by the exception's
    message; and it always returns, never raises. *)
Theorem call_ollama_never_raises :
  client_contract Voting.MODEL Voting.call_ollama
  /\ client_contract Sectioning.MODEL Sectioning.call_ollama.
Proof.
  split.
  - unfold Voting.call_ollama. apply call_ollama_contract.
  - unfold Sectioning.call_ollama. apply call_ollama_contract.
Qed.

(** C4, as the specification states it, fails: a reply with status 200
    whose body is a JSON list, or is no JSON at all, has no member
    [response], and [call_ollama] returns neither a member nor the empty
    string: it returns an error string. *)
Lemma call_ollama_200_error_string :
  Voting.call_ollama
    (fun _ _ => Reply 200 (JsonParsed (JOther (lit "list")))) (lit "hi")
  = Ok (VStr (lit "Error: 'list' object has no attribute 'get'"))
  /\ Voting.call_ollama
       (fun _ _ => Reply 200 (JsonParsed (JOther (lit "list")))) (lit "hi")
     <> Ok (VStr str_empty)
  /\ Sectioning.call_ollama
       (fun _ _ => Reply 200 (JsonFault (Exn (lit "ContentTypeError")
                                             (lit "unexpected mimetype: text/html"))))
       (lit "hi")
     = Ok (VStr (lit "Error: unexpected mimetype: text/html"))
  /\ Sectioning.call_ollama
       (fun _ _ => Reply 200 (JsonFault (Exn (lit "ContentTypeError")
                                             (lit "unexpected mimetype: text/html"))))
       (lit "hi")
     <> Ok (VStr str_empty).
Proof.
  split; [by vm_compute|]. split; [|split; [by vm_compute|]].
  - intros Heq. vm_compute in Heq. discriminate Heq.
  - intros Heq. vm_compute in Heq. discriminate Heq.
Qed.

(** ** The fan-out *)

Lemma complete_schedule_NoDup (n : nat) (order : list nat) :
  complete_schedule n order -> NoDup order.
Proof.
  intros Hperm. rewrite Hperm. apply NoDup_ListNoDup, List.seq_NoDup.
Qed.

Lemma complete_schedule_elem (n : nat) (order : list nat) (i : nat) :
  complete_schedule n order -> i < n -> exists k, order !! k = Some i.
Proof.
  intros Hperm Hi. apply list_elem_of_lookup_1. rewrite Hperm.
  apply elem_of_seq. lia.
Qed.

Lemma slots_filled {A} (slots : list (option A)) :
  (forall i, i < length slots -> exists a, slots !! i = Some (Some a)) ->
  exists rs, mapM id slots = Some rs /\ length rs = length slots
    /\ forall i a, slots !! i = Some (Some a) -> rs !! i = Some a.
Proof.
  intros Hfull.
  assert (is_Some (mapM id slots)) as [rs Hrs].
  { apply mapM_is_Some, Forall_lookup. intros i x Hx.
    destruct (Hfull i) as [a Ha]; [by eapply lookup_lt_Some|].
    rewrite Hx in Ha. injection Ha as ->. by eexists. }
  exists rs. split; [done|].
  apply mapM_Some in Hrs. split.
  - symmetry. by eapply Forall2_length.
  - intros i a Hi.
    destruct (Forall2_lookup_l _ _ _ _ _ Hrs Hi) as (b & Hb & Heq).
    simpl in Heq. by injection Heq as ->.
Qed.

Section GatherFacts.
Context {A : Type}.
Variable tasks : list (coroutine A).
Hypothesis tasks_return : forall i c p, tasks !! i = Some c -> returns (c p).

(** The slots after a schedule without repetition: every settled
    awaitable has filled its own slot, with what it settled with; the
    other slots are untouched. *)
Lemma settle_slots (order : list nat) :
  forall (p : nat) (slots : list (option A)),
    NoDup order ->
    exists slots',
      settle tasks p order slots = Ok slots'
      /\ length slots' = length slots
      /\ (forall i, i ∉ order -> slots' !! i = slots !! i)
      /\ (forall k i c, order !! k = Some i -> tasks !! i = Some c ->
            i < length slots ->
            exists a, c (p + k) = Ok a /\ slots' !! i = Some (Some a)).
Proof.
  induction order as [|i order IH]; intros p slots Hnodup.
  - exists slots. split; [done|]. split; [done|]. split; [done|].
    intros k i c Hk. by destruct k.
  - apply NoDup_cons in Hnodup as [Hi Hnodup]. simpl.
    destruct (tasks !! i) as [c|] eqn:Hc.
    + destruct (tasks_return i c p Hc) as [a Ha]. rewrite Ha.
      destruct (IH (S p) (<[i:=Some a]> slots) Hnodup)
        as (slots' & Hsettle & Hlen & Hout & Hin).
      exists slots'. rewrite length_insert in Hlen.
      split; [done|]. split; [done|]. split.
      * intros j Hj. apply not_elem_of_cons in Hj as [Hne Hj].
        rewrite (Hout j Hj). by apply list_lookup_insert_ne.
      * intros k j c' Hk Hc' Hlt. destruct k as [|k]; simpl in Hk.
        -- injection Hk as <-. rewrite Hc in Hc'. injection Hc' as <-.
           exists a. rewrite Nat.add_0_r. split; [done|].
           rewrite (Hout i Hi). by apply list_lookup_insert_eq.
        -- replace (p + S k) with (S p + k) by lia.
           apply (Hin k j c' Hk Hc'). by rewrite length_insert.
    + destruct (IH (S p) slots Hnodup) as (slots' & Hsettle & Hlen & Hout & Hin).
      exists slots'. split; [done|]. split; [done|]. split.
      * intros j Hj. apply not_elem_of_cons in Hj as [_ Hj]. by apply Hout.
      * intros k j c' Hk Hc' Hlt. destruct k as [|k]; simpl in Hk.
        -- injection Hk as <-. congruence.
        -- replace (p + S k) with (S p + k) by lia. by apply (Hin k j c').
Qed.

(** [gather] over awaitables that never raise: when all of them settle,
    it returns one result per awaitable, each in the place of its
    awaitable, whatever the order of settlement. *)
Lemma gather_ordered (order : list nat) :
  complete_schedule (length tasks) order ->
  exists rs,
    gather order tasks = Some (Ok rs)
    /\ length rs = length tasks
    /\ forall k i c, order !! k = Some i -> tasks !! i = Some c ->
         exists a, c k = Ok a /\ rs !! i = Some a.
Proof.
  intros Hcomplete. unfold gather.
  destruct (settle_slots order 0 (replicate (length tasks) None))
    as (slots & -> & Hlen & _ & Hin).
  { by eapply complete_schedule_NoDup. }
  rewrite length_replicate in Hlen.
  destruct (slots_filled slots) as (rs & Hrs & Hlenrs & Hlookup).
  { intros i Hi. rewrite Hlen in Hi.
    destruct (complete_schedule_elem _ _ i Hcomplete Hi) as [k Hk].
    destruct (lookup_lt_is_Some_2 tasks i Hi) as [c Hc].
    destruct (Hin k i c Hk Hc) as (a & _ & Ha); [by rewrite length_replicate|].
    by exists a. }
  exists rs. rewrite Hrs. split; [done|]. split; [congruence|].
  intros k i c Hk Hc.
  destruct (Hin k i c Hk Hc) as (a & Ha & Hslot).
  { rewrite length_replicate. by eapply lookup_lt_Some. }
  exists a. split; [done|]. by apply Hlookup.
Qed.

End GatherFacts.

Section FanOut.
Variable call : session -> pystr -> result pyval.
Hypothesis call_returns : forall s prompt, returns (call s prompt).
Variable net : nat -> session.

Lemma fan_out_ordered (prompts : list pystr) (order : list nat) :
  complete_schedule (length prompts) order ->
  exists responses,
    gather order (calls call net prompts) = Some (Ok responses)
    /\ length responses = length prompts
    /\ forall k i prompt, order !! k = Some i -> prompts !! i = Some prompt ->
         exists r, call (net k) prompt = Ok r /\ responses !! i = Some r.
Proof.
  intros Hcomplete.
  destruct (gather_ordered (calls call net prompts)) with (order := order)
    as (responses & Hgather & Hlen & Hplace).
  - intros i c p Hc. unfold calls in Hc.
    apply list_lookup_fmap_Some in Hc as (prompt & -> & _).
    apply call_returns.
  - unfold calls. by rewrite length_map.
  - exists responses. split; [done|]. split.
    + unfold calls in Hlen. by rewrite length_map in Hlen.
    + intros k i prompt Hk Hprompt.
      apply (Hplace k i (fun p => call (net p) prompt) Hk).
      unfold calls. change (map ?f ?l) with (f <$> l).
      by rewrite list_lookup_fmap, Hprompt.
Qed.

End FanOut.

Lemma voting_make_tasks (net : nat -> session) (text : pystr)
    (templates : list template) (prompts : list pystr) :
  Forall2 (fun t prompt => py_format t (lit "text") text = Ok prompt)
    templates prompts ->
  forall tasks,
    Voting.make_tasks net text templates tasks
    = Ok (tasks ++ calls Voting.call_ollama net prompts).
Proof.
  induction 1 as [|t prompt templates prompts Hfmt _ IH]; intros tasks; simpl.
  - by rewrite app_nil_r.
  - rewrite Hfmt. simpl. rewrite IH. by rewrite <- app_assoc.
Qed.

Lemma sectioning_make_tasks (net : nat -> session) (user_topic : pystr)
    (items : list (pystr * template)) (prompts : list pystr) :
  Forall2 (fun item prompt => py_format item.2 (lit "topic") user_topic = Ok prompt)
    items prompts ->
  forall tasks section_names,
    Sectioning.make_tasks net user_topic items tasks section_names
    = Ok (tasks ++ calls Sectioning.call_ollama net prompts,
          section_names ++ items.*1).
Proof.
  induction 1 as [|[name t] prompt items prompts Hfmt _ IH];
    intros tasks section_names; simpl.
  - by rewrite !app_nil_r.
  - simpl in Hfmt. rewrite Hfmt. simpl. rewrite IH. by rewrite <- !app_assoc.
Qed.

(** The prompt templates have no field but the one the caller fills. *)
Lemma sentiment_prompts_format (text : pystr) :
  exists prompts,
    Forall2 (fun t prompt => py_format t (lit "text") text = Ok prompt)
      Voting.SENTIMENT_PROMPTS prompts.
Proof.
  eexists. unfold Voting.SENTIMENT_PROMPTS.
  repeat (econstructor; [reflexivity|]). constructor.
Qed.

Lemma section_prompts_format (user_topic : pystr) :
  exists prompts,
    Forall2 (fun item prompt => py_format item.2 (lit "topic") user_topic = Ok prompt)
      Sectioning.SECTION_PROMPTS prompts.
Proof.
  eexists. unfold Sectioning.SECTION_PROMPTS.
  repeat (econstructor; [reflexivity|]). constructor.
Qed.



Lemma voting_fan_out (net : nat -> session) (order : list nat) (text : pystr) :
  complete_schedule (length Voting.SENTIMENT_PROMPTS) order ->
  voting_fan_out_ordered net order text.
Proof.
  intros Hcomplete.
  destruct (sentiment_prompts_format text) as [prompts Hfmt].
  pose proof (Forall2_length _ _ _ Hfmt) as Hlen.
  destruct (fan_out_ordered Voting.call_ollama
              (call_ollama_returns Voting.MODEL) net prompts order)
    as (responses & Hgather & Hlenr & Hplace); [by rewrite <- Hlen|].
  exists responses. unfold Voting.gather_responses.
  rewrite (voting_make_tasks net text _ prompts Hfmt []). simpl.
  split; [done|]. split; [by rewrite Hlenr, <- Hlen|].
  intros k i t Hk Ht.
  destruct (Forall2_lookup_l _ _ _ _ _ Hfmt Ht) as (prompt & Hprompt & Hformat).
  destruct (Hplace k i prompt Hk Hprompt) as (r & Hr & Hi).
  by exists prompt, r.
Qed.




(** ** Upper-casing and trimming commute *)

Section CaseAndSpace.
Variable db : unicode_db.
Hypothesis db_ok : upper_respects_space db.

Lemma to_upper_space (c : N) :
  is_space db c = true -> Forall (fun d => is_space db d = true) (to_upper db c).
Proof.
  intros Hc. destruct (db_ok c) as [_ Hall].
  eapply Forall_impl; [exact Hall|]. simpl. congruence.
Qed.

Lemma to_upper_nonspace (c : N) :
  is_space db c = false ->
  to_upper db c <> [] /\ Forall (fun d => is_space db d = false) (to_upper db c).
Proof.
  intros Hc. destruct (db_ok c) as [Hne Hall]. split; [done|].
  eapply Forall_impl; [exact Hall|]. simpl. congruence.
Qed.

Lemma py_lstrip_spaces (spaces s : pystr) :
  Forall (fun d => is_space db d = true) spaces ->
  py_lstrip db (spaces ++ s) = py_lstrip db s.
Proof.
  induction 1 as [|d spaces Hd _ IH]; simpl; [done|]. by rewrite Hd.
Qed.

Lemma py_lstrip_nonspace (word s : pystr) :
  word <> [] -> Forall (fun d => is_space db d = false) word ->
  py_lstrip db (word ++ s) = word ++ s.
Proof.
  intros Hne Hall. destruct word as [|d word]; [done|].
  apply Forall_cons in Hall as [Hd _]. simpl. by rewrite Hd.
Qed.

Lemma py_rstrip_spaces (s spaces : pystr) :
  Forall (fun d => is_space db d = true) spaces ->
  py_rstrip db (s ++ spaces) = py_rstrip db s.
Proof.
  intros Hall. unfold py_rstrip. rewrite rev_app_distr.
  rewrite py_lstrip_spaces; [done|]. by apply List.Forall_rev.
Qed.

Lemma py_rstrip_nonspace (s word : pystr) :
  word <> [] -> Forall (fun d => is_space db d = false) word ->
  py_rstrip db (s ++ word) = s ++ word.
Proof.
  intros Hne Hall. unfold py_rstrip. rewrite rev_app_distr.
  rewrite py_lstrip_nonspace.
  - by rewrite <- rev_app_distr, rev_involutive.
  - intros Hrev. apply Hne. by rewrite <- (rev_involutive word), Hrev.
  - by apply List.Forall_rev.
Qed.

Lemma py_upper_app (s t : pystr) :
  py_upper db (s ++ t) = py_upper db s ++ py_upper db t.
Proof. unfold py_upper. apply flat_map_app. Qed.

Lemma py_upper_one (c : N) : py_upper db [c] = to_upper db c.
Proof. unfold py_upper. simpl. apply app_nil_r. Qed.

Lemma py_lstrip_upper (s : pystr) :
  py_lstrip db (py_upper db s) = py_upper db (py_lstrip db s).
Proof.
  induction s as [|c s IH]; [done|].
  change (c :: s) with ([c] ++ s) at 1. rewrite py_upper_app, py_upper_one.
  simpl. destruct (is_space db c) eqn:Hc.
  - rewrite py_lstrip_spaces; [done|]. by apply to_upper_space.
  - destruct (to_upper_nonspace c Hc) as [Hne Hall].
    rewrite py_lstrip_nonspace by done.
    change (c :: s) with ([c] ++ s). by rewrite py_upper_app, py_upper_one.
Qed.

Lemma py_rstrip_upper (s : pystr) :
  py_rstrip db (py_upper db s) = py_upper db (py_rstrip db s).
Proof.
  induction s as [|c s IH] using rev_ind; [done|].
  rewrite py_upper_app, py_upper_one. destruct (is_space db c) eqn:Hc.
  - rewrite py_rstrip_spaces by (by apply to_upper_space).
    rewrite (py_rstrip_spaces s [c]); [done|].
    by apply Forall_singleton.
  - destruct (to_upper_nonspace c Hc) as [Hne Hall].
    rewrite py_rstrip_nonspace by done.
    rewrite (py_rstrip_nonspace s [c]); [|done|by apply Forall_singleton].
    by rewrite py_upper_app, py_upper_one.
Qed.

(** [s.upper().strip()] is [s.strip().upper()]. *)
Lemma py_strip_upper (s : pystr) :
  py_strip db (py_upper db s) = py_upper db (py_strip db s).
Proof.
  unfold py_strip. by rewrite py_lstrip_upper, py_rstrip_upper.
Qed.

End CaseAndSpace.

(** ** The classification of a response *)

Lemma first_label_in_cases (s : pystr) :
  first_label_in s =
  if contains Voting.POSITIVE s then Some Voting.POSITIVE
  else if contains Voting.NEGATIVE s then Some Voting.NEGATIVE
  else if contains Voting.NEUTRAL s then Some Voting.NEUTRAL
  else None.
Proof. reflexivity. Qed.

Lemma first_label_in_label (s l : pystr) :
  first_label_in s = Some l -> l ∈ labels /\ contains l s = true.
Proof.
  intros Hfind. apply find_some in Hfind as [Hin Hl].
  split; [by apply list_elem_of_In | done].
Qed.

Lemma first_label_in_none (s l : pystr) :
  first_label_in s = None -> l ∈ labels -> contains l s = false.
Proof.
  intros Hfind Hl. apply list_elem_of_In in Hl.
  exact (find_none _ _ Hfind l Hl).
Qed.

Section VoteFacts.
Variable db : unicode_db.
Hypothesis db_ok : upper_respects_space db.

(** A normalized response that is not empty has a first word. *)
Lemma sentiment_first_word (sa_response : pystr) :
  truthy (Voting.sentiment_of db sa_response) = true ->
  exists w, list_index (py_split db (Voting.sentiment_of db sa_response)) 0 = Ok w
    /\ w ∈ py_split db (Voting.sentiment_of db sa_response).
Proof.
  unfold Voting.sentiment_of. intros Hne.
  destruct (py_strip_head db sa_response) as [Hs | (c & s & Hs & Hc)];
    rewrite Hs in *; [done|].
  destruct (py_upper_head db c s db_ok Hc) as (d & s' & -> & Hd).
  pose proof (py_split_head db d s' Hd) as Hsplit.
  destruct (py_split db (d :: s')) as [|w ws]; [done|].
  exists w. split; [done|]. by apply elem_of_cons; left.
Qed.

(** With no label contained, the first word is no label either: the
    second rule never adds a vote that the first rule has not added. *)
Lemma first_word_no_label (s w : pystr) :
  first_label_in s = None -> w ∈ py_split db s -> w ∉ labels.
Proof.
  intros Hnone Hw Hl.
  pose proof (first_label_in_none s w Hnone Hl) as Hcontains.
  by rewrite (py_split_contains db s w Hw) in Hcontains.
Qed.

(** One pass of the loop: the vote appended is the first label that the
    normalized response contains, if any. *)
Lemma clean_vote_spec (sa_votes : list pystr) (sa_response : pystr) :
  Voting.clean_vote db sa_votes (VStr sa_response)
  = Ok (sa_votes ++ option_list (first_label_in (Voting.sentiment_of db sa_response))).
Proof.
  unfold Voting.clean_vote. cbn [str_method mbind result_bind].
  destruct (first_label_in (Voting.sentiment_of db sa_response)) as [l|] eqn:Hfirst;
    rewrite first_label_in_cases in Hfirst.
  - destruct (contains Voting.POSITIVE _); [by injection Hfirst as <-|].
    destruct (contains Voting.NEGATIVE _); [by injection Hfirst as <-|].
    destruct (contains Voting.NEUTRAL _); [by injection Hfirst as <-|done].
  - destruct (contains Voting.POSITIVE _) eqn:Hpos; [done|].
    destruct (contains Voting.NEGATIVE _) eqn:Hneg; [done|].
    destruct (contains Voting.NEUTRAL _) eqn:Hneu; [done|].
    assert (first_label_in (Voting.sentiment_of db sa_response) = None) as Hnone.
    { by rewrite first_label_in_cases, Hpos, Hneg, Hneu. }
    simpl. rewrite app_nil_r.
    destruct (truthy _) eqn:Htruthy.
    + destruct (sentiment_first_word sa_response Htruthy) as (w & -> & Hw).
      simpl. rewrite bool_decide_eq_false_2; [done|].
      by apply (first_word_no_label _ w Hnone).
    + reflexivity.
Qed.

(** The classifier of the code is the classifier of the specification. *)
Lemma classify_spec_first_label (response : pystr) :
  classify_spec db response = first_label_in (Voting.sentiment_of db response).
Proof.
  unfold classify_spec. rewrite (py_strip_upper db db_ok).
  fold (Voting.sentiment_of db response).
  destruct (first_label_in _) eqn:Hfirst; [done|].
  destruct (py_split db _) as [|w ws] eqn:Hsplit; [done|].
  rewrite bool_decide_eq_false_2; [done|].
  apply (first_word_no_label _ w Hfirst). rewrite Hsplit. by apply elem_of_cons; left.
Qed.

Lemma clean_votes_spec (responses : list pystr) :
  forall sa_votes,
    Voting.clean_votes db sa_votes (VStr <$> responses)
    = Ok (sa_votes ++ omap (classify_spec db) responses).
Proof.
  induction responses as [|r responses IH]; intros sa_votes.
  - simpl. by rewrite app_nil_r.
  - cbn [fmap list_fmap Voting.clean_votes]. rewrite clean_vote_spec.
    cbn [mbind result_bind]. fold (fmap (M := list) VStr responses).
    rewrite IH, <- app_assoc.
    change (omap (classify_spec db) (r :: responses))
      with (match classify_spec db r with
            | Some y => y :: omap (classify_spec db) responses
            | None => omap (classify_spec db) responses
            end).
    rewrite classify_spec_first_label. by destruct (first_label_in _).
Qed.

(** The loop ends at the first response that is no string: [strip] is
    looked up on it, and the [AttributeError] leaves the function. *)
Lemma clean_votes_raises (before : list pystr) (type_name text : pystr)
    (after : list pyval) :
  forall sa_votes,
    Voting.clean_votes db sa_votes
      ((VStr <$> before) ++ VOther type_name text :: after)
    = Raise (no_attribute type_name (lit "strip")).
Proof.
  induction before as [|r before IH]; intros sa_votes.
  - reflexivity.
  - cbn [fmap list_fmap app Voting.clean_votes]. rewrite clean_vote_spec.
    cbn [mbind result_bind]. fold (fmap (M := list) VStr before).
    apply IH.
Qed.

End VoteFacts.

(** A list of responses is a list of strings, or has a first response
    that is no string. *)
Lemma responses_cases (responses : list pyval) :
  (exists strings, responses = VStr <$> strings)
  \/ (exists before type_name text after,
        responses = (VStr <$> before) ++ VOther type_name text :: after).
Proof.
  induction responses as [|[s|type_name text] responses IH].
  - left. by exists [].
  - destruct IH as [(strings & ->)|(before & type_name & text & after & ->)].
    + left. by exists (s :: strings).
    + right. by exists (s :: before), type_name, text, after.
  - right. by exists [], type_name, text, responses.
Qed.

(** ** The tally *)

Section OrderedDictFacts.
Context {K V : Type} `{EqDecision K}.
Implicit Types (d : list (K * V)) (k : K) (v : V).

Lemma odict_get_set d k v k' default :
  odict_get (odict_set d k v) k' default
  = if decide (k = k') then v else odict_get d k' default.
Proof.
  induction d as [|[k0 v0] d IH]; simpl.
  - by destruct (decide (k = k')).
  - destruct (decide (k0 = k)) as [->|Hne]; simpl.
    + by destruct (decide (k = k')).
    + destruct (decide (k0 = k')) as [->|Hne'].
      * by rewrite decide_False by done.
      * apply IH.
Qed.

Lemma odict_set_keys d k v :
  (odict_set d k v).*1 = if decide (k ∈ d.*1) then d.*1 else d.*1 ++ [k].
Proof.
  induction d as [|[k0 v0] d IH].
  - destruct (decide (k ∈ _)) as [Hin|_]; [by apply elem_of_nil in Hin|done].
  - cbn [odict_set]. destruct (decide (k0 = k)) as [->|Hne].
    + rewrite decide_True; [done|]. rewrite fmap_cons. by apply elem_of_cons; left.
    + rewrite !fmap_cons, IH. cbn [fst].
      destruct (decide (k ∈ d.*1)) as [Hin|Hnin].
      * rewrite decide_True; [done|]. by apply elem_of_cons; right.
      * rewrite decide_False; [done|].
        intros [->|Hin]%elem_of_cons; done.
Qed.

Lemma odict_get_absent d k default :
  k ∉ d.*1 -> odict_get d k default = default.
Proof.
  induction d as [|[k0 v0] d IH]; simpl; [done|].
  intros [Hne Hnin]%not_elem_of_cons.
  rewrite decide_False by done. by apply IH.
Qed.

(** With distinct keys, [get] reads what [items()] shows. *)
Lemma odict_get_item d k v default :
  NoDup d.*1 -> (k, v) ∈ d -> odict_get d k default = v.
Proof.
  induction d as [|[k0 v0] d IH]; simpl; intros Hnodup Hin.
  - by apply elem_of_nil in Hin.
  - apply NoDup_cons in Hnodup as [Hk0 Hnodup].
    apply elem_of_cons in Hin as [Heq|Hin].
    + injection Heq as -> ->. by rewrite decide_True.
    + rewrite decide_False; [by apply IH|].
      intros ->. apply Hk0. apply list_elem_of_fmap. by exists (k, v).
Qed.

End OrderedDictFacts.

Lemma occurrences_cons (l v : pystr) (votes : list pystr) :
  occurrences l (v :: votes)
  = if decide (v = l) then S (occurrences l votes) else occurrences l votes.
Proof.
  unfold occurrences. rewrite filter_cons. by destruct (decide (v = l)).
Qed.

Lemma occurrences_absent (l : pystr) (votes : list pystr) :
  l ∉ votes -> occurrences l votes = 0.
Proof.
  induction votes as [|v votes IH]; [done|].
  intros [Hne Hnin]%not_elem_of_cons. rewrite occurrences_cons.
  rewrite decide_False by done. by apply IH.
Qed.

Lemma occurrences_present (l : pystr) (votes : list pystr) :
  l ∈ votes -> 0 < occurrences l votes.
Proof.
  induction votes as [|v votes IH]; intros Hin.
  - by apply elem_of_nil in Hin.
  - rewrite occurrences_cons. destruct (decide (v = l)); [lia|].
    apply IH. apply elem_of_cons in Hin as [->|Hin]; done.
Qed.

Lemma elem_of_first_met (l : pystr) (votes : list pystr) :
  l ∈ first_met votes <-> l ∈ votes.
Proof.
  induction votes as [|v votes IH]; simpl; [done|].
  rewrite !elem_of_cons, list_elem_of_filter, IH.
  destruct (decide (l = v)); tauto.
Qed.

Lemma first_met_NoDup (votes : list pystr) : NoDup (first_met votes).
Proof.
  induction votes as [|v votes IH]; simpl; [apply NoDup_nil_2|].
  apply NoDup_cons. split.
  - rewrite list_elem_of_filter. by intros [Hne _].
  - by apply NoDup_filter.
Qed.

(** The count of every label after the third loop. *)
Lemma count_votes_get (sa_votes : list pystr) (l : pystr) :
  forall sa_vote_counts,
    odict_get (Voting.count_votes sa_vote_counts sa_votes) l 0
    = odict_get sa_vote_counts l 0 + occurrences l sa_votes.
Proof.
  induction sa_votes as [|v votes IH]; intros counts; simpl.
  - unfold occurrences. simpl. lia.
  - rewrite IH, odict_get_set, occurrences_cons.
    destruct (decide (v = l)) as [->|Hne]; lia.
Qed.

(** The keys of the count map after the third loop: the keys it had,
    then the new labels in the order in which they are first met. *)
Lemma count_votes_keys (sa_votes : list pystr) :
  forall sa_vote_counts,
    (Voting.count_votes sa_vote_counts sa_votes).*1
    = sa_vote_counts.*1
      ++ filter (fun l => l ∉ sa_vote_counts.*1) (first_met sa_votes).
Proof.
  induction sa_votes as [|v votes IH]; intros counts; simpl.
  - by rewrite app_nil_r.
  - rewrite IH, odict_set_keys. destruct (decide (v ∈ counts.*1)) as [Hin|Hnin].
    + rewrite filter_cons_False by naive_solver.
      rewrite list_filter_filter_l; [done|]. by intros l Hl ->.
    + rewrite filter_cons_True by done. rewrite <- app_assoc. simpl.
      do 2 f_equal. rewrite list_filter_filter. apply list_filter_iff.
      intros l. rewrite not_elem_of_app, list_elem_of_singleton. naive_solver.
Qed.

Lemma count_votes_total (sa_votes : list pystr) :
  forall sa_vote_counts,
    sum_list_with snd (Voting.count_votes sa_vote_counts sa_votes)
    = sum_list_with snd sa_vote_counts + length sa_votes.
Proof.
  assert (forall (counts : list (pystr * nat)) v,
    sum_list_with snd (odict_set counts v (odict_get counts v 0 + 1))
    = sum_list_with snd counts + 1) as Hset.
  { intros counts v. induction counts as [|[k n] counts IH]; simpl; [done|].
    destruct (decide (k = v)) as [->|Hne]; simpl; lia. }
  induction sa_votes as [|v votes IH]; intros counts; simpl; [lia|].
  rewrite IH, Hset. lia.
Qed.

(** The count map of the votes: the labels in the order in which they
    are first met, each with the number of its votes. *)
Lemma count_votes_items (sa_votes : list pystr) :
  Voting.count_votes [] sa_votes
  = map (fun l => (l, occurrences l sa_votes)) (first_met sa_votes).
Proof.
  assert (forall ls : list pystr, filter (fun l => l ∉ []) ls = ls) as Hall.
  { induction ls as [|l ls IH]; [done|].
    rewrite filter_cons_True by apply not_elem_of_nil. by rewrite IH. }
  pose proof (count_votes_keys sa_votes []) as Hkeys.
  rewrite fmap_nil, Hall in Hkeys. simpl in Hkeys.
  apply list_eq. intros i. rewrite list_lookup_fmap.
  rewrite <- Hkeys, list_lookup_fmap.
  destruct (Voting.count_votes [] sa_votes !! i) as [[l n]|] eqn:Hi; simpl; [|done].
  f_equal. f_equal.
  pose proof (count_votes_get sa_votes l []) as Hget. simpl in Hget.
  rewrite <- Hget. symmetry. apply odict_get_item.
  - rewrite Hkeys. apply first_met_NoDup.
  - by eapply list_elem_of_lookup_2.
Qed.

Lemma max_from_spec {A} (key : A -> nat) (l : list A) :
  forall best,
    exists i,
      (best :: l) !! i = Some (max_from key best l)
      /\ forall j y, (best :: l) !! j = Some y ->
           key y <= key (max_from key best l)
           /\ (key y = key (max_from key best l) -> i <= j).
Proof.
  induction l as [|x l IH]; intros best; simpl.
  - exists 0. split; [done|]. intros j y Hj.
    destruct j as [|j]; [|done]. injection Hj as <-. lia.
  - destruct (IH (if key best <? key x then x else best)) as (i & Hi & Hmax).
    set (m := max_from key (if key best <? key x then x else best) l) in *.
    destruct (Nat.ltb_spec (key best) (key x)) as [Hlt|Hge].
    + exists (S i). split; [done|]. intros j y Hj.
      destruct j as [|j]; simpl in Hj.
      * injection Hj as <-. destruct (Hmax 0 x eq_refl) as [Hle _]. lia.
      * destruct (Hmax j y Hj) as [Hle Hfirst]. split; [done|]. intros Heq.
        specialize (Hfirst Heq). lia.
    + destruct i as [|i]; simpl in Hi.
      * exists 0. split; [done|]. intros j y Hj.
        destruct j as [|[|j]]; simpl in Hj.
        -- injection Hj as <-. destruct (Hmax 0 best eq_refl) as [Hle _]. lia.
        -- injection Hj as <-. injection Hi as Hi. rewrite <- Hi. lia.
        -- destruct (Hmax (S j) y Hj) as [Hle _]. lia.
      * exists (S (S i)). split; [done|]. intros j y Hj.
        destruct (Hmax 0 best eq_refl) as [Hbest Hbest'].
        destruct j as [|[|j]]; simpl in Hj.
        -- injection Hj as <-. lia.
        -- injection Hj as <-. lia.
        -- destruct (Hmax (S j) y Hj) as [Hle Hfirst]. split; [done|].
           intros Heq. specialize (Hfirst Heq). lia.
Qed.

(** The winner of a vote that is not empty: the first of the labels, in
    the order in which the votes first name them, among those with the
    most votes. *)
Lemma determine_winner_spec (vote : pystr) (votes : list pystr) :
  exists winner i,
    Voting.determine_winner (vote :: votes) = Ok (winner, vote :: votes)
    /\ first_met (vote :: votes) !! i = Some winner
    /\ forall j l, first_met (vote :: votes) !! j = Some l ->
         occurrences l (vote :: votes) <= occurrences winner (vote :: votes)
         /\ (occurrences l (vote :: votes) = occurrences winner (vote :: votes)
             -> i <= j).
Proof.
  unfold Voting.determine_winner. rewrite count_votes_items.
  remember (vote :: votes) as sa_votes eqn:Evotes.
  set (item := fun l => (l, occurrences l sa_votes)).
  destruct (first_met sa_votes) as [|l0 ls] eqn:Emet.
  { rewrite Evotes in Emet. discriminate. }
  destruct (max_from_spec snd (map item ls) (item l0)) as (i & Hi & Hmax).
  change (item l0 :: map item ls) with (item <$> (l0 :: ls)) in Hi, Hmax.
  apply list_lookup_fmap_Some in Hi as (winner & Hbest & Hi).
  exists winner, i. split.
  { cbn [map py_max]. unfold mbind, result_bind. by rewrite Hbest. }
  split; [done|].
  intros j l Hj.
  destruct (Hmax j (item l)) as [Hle Hfirst].
  { by rewrite list_lookup_fmap, Hj. }
  rewrite Hbest in Hle, Hfirst. by split.
Qed.

(** ** The ASCII part of the character database *)

Lemma ascii_db_compatible : ascii_compatible ascii_db.
Proof. intros c _. by split. Qed.

Lemma ascii_db_respects_space : upper_respects_space ascii_db.
Proof.
  intros c. split; [done|]. apply Forall_singleton.
  unfold ascii_db, is_space, ascii_space, ascii_upper.
  destruct (N.leb_spec 97 c), (N.leb_spec c 122); simpl;
  repeat (match goal with
          | |- context [(?a <=? ?b)%N] => destruct (N.leb_spec a b)
          end; simpl);
    first [reflexivity | exfalso; lia].
Qed.

Lemma ascii_upper_is_ascii (c : N) : is_ascii c -> is_ascii (ascii_upper c).
Proof.
  unfold is_ascii, ascii_upper. intros Hc.
  destruct ((97 <=? c) && (c <=? 122))%N; lia.
Qed.

Section AsciiFacts.
Variable db : unicode_db.
Hypothesis db_ascii : ascii_compatible db.

Lemma py_upper_ascii (s : pystr) :
  Forall is_ascii s -> py_upper db s = py_upper ascii_db s.
Proof.
  unfold py_upper. induction 1 as [|c s Hc _ IH]; simpl; [done|].
  destruct (db_ascii c Hc) as [-> _]. by rewrite IH.
Qed.

Lemma py_lstrip_ascii (s : pystr) :
  Forall is_ascii s -> py_lstrip db s = py_lstrip ascii_db s.
Proof.
  induction 1 as [|c s Hc _ IH]; simpl; [done|].
  destruct (db_ascii c Hc) as [_ ->]. by rewrite IH.
Qed.

Lemma py_lstrip_Forall (P : N -> Prop) (d : unicode_db) (s : pystr) :
  Forall P s -> Forall P (py_lstrip d s).
Proof.
  induction 1 as [|c s Hc Hs IH]; simpl; [done|].
  destruct (is_space d c); [done|]. by apply Forall_cons.
Qed.

Lemma py_strip_Forall (P : N -> Prop) (d : unicode_db) (s : pystr) :
  Forall P s -> Forall P (py_strip d s).
Proof.
  intros Hs. unfold py_strip, py_rstrip.
  by apply List.Forall_rev, py_lstrip_Forall, List.Forall_rev, py_lstrip_Forall.
Qed.

Lemma py_strip_ascii (s : pystr) :
  Forall is_ascii s -> py_strip db s = py_strip ascii_db s.
Proof.
  intros Hs. unfold py_strip, py_rstrip.
  rewrite (py_lstrip_ascii s Hs). rewrite py_lstrip_ascii; [done|].
  by apply List.Forall_rev, py_lstrip_Forall.
Qed.

(** On an ASCII response, every database that is right on ASCII
    normalizes like the ASCII one. *)
Lemma sentiment_of_ascii (response : pystr) :
  Forall is_ascii response ->
  Voting.sentiment_of db response = Voting.sentiment_of ascii_db response.
Proof.
  intros Hs. unfold Voting.sentiment_of.
  rewrite (py_strip_ascii response Hs). apply py_upper_ascii.
  by apply py_strip_Forall.
Qed.

End AsciiFacts.

Lemma classify_ascii (db : unicode_db) (response : pystr) :
  upper_respects_space db -> ascii_compatible db ->
  Forall is_ascii response ->
  classify_spec db response = classify_spec ascii_db response.
Proof.
  intros Hspace Hascii Hs.
  rewrite (classify_spec_first_label db Hspace).
  rewrite (classify_spec_first_label ascii_db ascii_db_respects_space).
  by rewrite (sentiment_of_ascii db Hascii response Hs).
Qed.

Lemma classify_all_ascii (db : unicode_db) (responses : list pystr) :
  upper_respects_space db -> ascii_compatible db ->
  Forall (Forall is_ascii) responses ->
  omap (classify_spec db) responses = omap (classify_spec ascii_db) responses.
Proof.
  intros Hspace Hascii. induction 1 as [|r responses Hr _ IH]; [done|].
  change (omap ?f (r :: responses))
    with (match f r with Some y => y :: omap f responses | None => omap f responses end).
  by rewrite IH, (classify_ascii db r Hspace Hascii Hr).
Qed.

(** ** The vote *)

Lemma value_responses (r1 r2 r3 : pyval) (text : pystr) :
  Voting.gather_responses (value_net [r1; r2; r3]) [0; 1; 2] text
  = Some (Ok [r1; r2; r3]).
Proof.
  destruct (voting_fan_out (value_net [r1; r2; r3]) [0; 1; 2] text)
    as (responses & -> & Hlen & Hplace).
  { unfold complete_schedule. apply (bool_decide_unpack _). by vm_compute. }
  do 2 f_equal. change (length Voting.SENTIMENT_PROMPTS) with 3 in Hlen.
  destruct responses as [|a [|b [|c [|? ?]]]]; try discriminate Hlen.
  assert (forall i r, [r1; r2; r3] !! i = Some r -> [a; b; c] !! i = Some r) as Hr.
  { intros i r Hi.
    destruct (lookup_lt_is_Some_2 Voting.SENTIMENT_PROMPTS i) as [t Ht].
    { change (length Voting.SENTIMENT_PROMPTS) with 3.
      apply lookup_lt_Some in Hi. simpl in Hi. lia. }
    destruct (Hplace i i t) as (prompt & r' & _ & Hcall & Hi').
    { by destruct i as [|[|[|i]]]. }
    { done. }
    rewrite Hi'. f_equal.
    unfold Voting.call_ollama, Client.call_ollama, value_net, session_post in Hcall.
    simpl in Hcall. rewrite lookup_singleton_eq, Hi in Hcall. by injection Hcall as <-. }
  pose proof (Hr 0 r1 eq_refl) as H0. pose proof (Hr 1 r2 eq_refl) as H1.
  pose proof (Hr 2 r3 eq_refl) as H2. simpl in H0, H1, H2. congruence.
Qed.

Lemma mocked_responses (r1 r2 r3 text : pystr) :
  Voting.gather_responses (mock_net [r1; r2; r3]) [0; 1; 2] text
  = Some (Ok (VStr <$> [r1; r2; r3])).
Proof. apply value_responses. Qed.

Lemma classify_spec_label (db : unicode_db) (response l : pystr) :
  upper_respects_space db ->
  classify_spec db response = Some l -> l ∈ labels.
Proof.
  intros Hdb. rewrite (classify_spec_first_label db Hdb).
  intros Hl. by apply first_label_in_label in Hl as [Hl _].
Qed.

Lemma votes_are_labels (db : unicode_db) (responses : list pystr) :
  upper_respects_space db ->
  Forall (fun v => v ∈ labels) (omap (classify_spec db) responses).
Proof.
  intros Hdb. apply Forall_forall. intros v Hv.
  apply list_elem_of_omap in Hv as (r & _ & Hr).
  by apply (classify_spec_label db r).
Qed.

Lemma votes_at_most_responses {A B} (f : A -> option B) (l : list A) :
  length (omap f l) <= length l.
Proof.
  induction l as [|x l IH]; [done|].
  change (omap f (x :: l))
    with (match f x with Some y => y :: omap f l | None => omap f l end).
  destruct (f x); simpl; lia.
Qed.


Lemma determine_winner_member (sa_votes : list pystr) :
  exists winner,
    Voting.determine_winner sa_votes = Ok (winner, sa_votes)
    /\ (sa_votes = [] -> winner = Voting.UNABLE_TO_DETERMINE)
    /\ (sa_votes <> [] -> winner ∈ sa_votes).
Proof.
  destruct sa_votes as [|vote votes].
  - by exists Voting.UNABLE_TO_DETERMINE.
  - destruct (determine_winner_spec vote votes) as (winner & i & Hwin & Hi & _).
    exists winner. split; [done|]. split; [done|]. intros _.
    apply elem_of_first_met. by eapply list_elem_of_lookup_2.
Qed.

Lemma analyze_of_responses (db : unicode_db) (net : nat -> session)
    (order : list nat) (text : pystr) (responses : list pystr) :
  upper_respects_space db ->
  Voting.gather_responses net order text = Some (Ok (VStr <$> responses)) ->
  Voting.analyze_sentiment_voting db net order text
  = Some (Voting.determine_winner (omap (classify_spec db) responses)).
Proof.
  intros Hdb Hgather. unfold Voting.analyze_sentiment_voting, await_then.
  remember (VStr <$> responses) as values eqn:Hvalues.
  rewrite Hgather. cbn [fmap option_fmap option_map mbind result_bind].
  subst values. by rewrite (clean_votes_spec db Hdb).
Qed.

(** When one of the responses is no string, the function raises. *)
Lemma analyze_of_values (db : unicode_db) (net : nat -> session)
    (order : list nat) (text : pystr) (before : list pystr)
    (type_name shown : pystr) (after : list pyval) :
  upper_respects_space db ->
  Voting.gather_responses net order text
  = Some (Ok ((VStr <$> before) ++ VOther type_name shown :: after)) ->
  Voting.analyze_sentiment_voting db net order text
  = Some (Raise (no_attribute type_name (lit "strip"))).
Proof.
  intros Hdb Hgather. unfold Voting.analyze_sentiment_voting, await_then.
  remember ((VStr <$> before) ++ VOther type_name shown :: after) as values
    eqn:Hvalues.
  rewrite Hgather. cbn [fmap option_fmap option_map mbind result_bind].
  subst values. by rewrite (clean_votes_raises db Hdb).
Qed.

(** [analyze_sentiment_voting], when all three calls settle. When the
    responses are strings, the votes are the classified responses, in
    the order of the prompts; otherwise the first response that is no
    string, in the order of the prompts, makes the function raise. *)
Lemma analyze_sentiment_voting_spec (db : unicode_db) (net : nat -> session)
    (order : list nat) (text : pystr) :
  upper_respects_space db ->
  complete_schedule (length Voting.SENTIMENT_PROMPTS) order ->
  exists responses,
    Voting.gather_responses net order text = Some (Ok responses)
    /\ length responses = length Voting.SENTIMENT_PROMPTS
    /\ (forall strings, responses = VStr <$> strings ->
          Voting.analyze_sentiment_voting db net order text
          = Some (Voting.determine_winner (omap (classify_spec db) strings)))
    /\ (forall before type_name shown after,
          responses = (VStr <$> before) ++ VOther type_name shown :: after ->
          Voting.analyze_sentiment_voting db net order text
          = Some (Raise (no_attribute type_name (lit "strip")))).
Proof.
  intros Hdb Hcomplete.
  destruct (voting_fan_out net order text Hcomplete) as (responses & Hgather & Hlen & _).
  exists responses. split; [done|]. split; [done|]. split.
  - intros strings ->. by apply analyze_of_responses.
  - intros before type_name shown after ->. by eapply analyze_of_values.
Qed.

(** C2. The classifier of the code is the classifier of the
    specification: the response uppercased and trimmed, the first of
    POSITIVE, NEGATIVE, NEUTRAL that it contains, else its first token
    when that is a label, else no vote. The responses POSITIVE,
    [positive please], NEGATIVE give the votes POSITIVE, POSITIVE,
    NEGATIVE and the winner POSITIVE. *)
Theorem classifier_follows_specification (db : unicode_db) :
  upper_respects_space db -> ascii_compatible db ->
  (forall sa_votes response,
     Voting.clean_vote db sa_votes (VStr response)
     = Ok (sa_votes ++ option_list (classify_spec db response)))
  /\ (forall text,
        Voting.analyze_sentiment_voting db
          (mock_net [lit "POSITIVE"; lit "positive please"; lit "NEGATIVE"])
          [0; 1; 2] text
        = Some (Ok (Voting.POSITIVE,
                    [Voting.POSITIVE; Voting.POSITIVE; Voting.NEGATIVE]))).
Proof.
  intros Hspace Hascii. split.
  - intros sa_votes response.
    rewrite (clean_vote_spec db Hspace).
    by rewrite (classify_spec_first_label db Hspace).
  - intros text.
    rewrite (analyze_of_responses db _ _ _ _ Hspace (mocked_responses _ _ _ text)).
    rewrite (classify_all_ascii db _ Hspace Hascii)
      by (apply (bool_decide_unpack _); by vm_compute).
    by vm_compute.
Qed.

Lemma classifier_follows_specification_witness :
  upper_respects_space ascii_db /\ ascii_compatible ascii_db
  /\ Voting.clean_vote ascii_db [] (VStr (lit " it is Negative, not positive "))
     = Ok [Voting.POSITIVE]
  /\ Voting.analyze_sentiment_voting ascii_db
       (mock_net [lit "POSITIVE"; lit "positive please"; lit "NEGATIVE"])
       [0; 1; 2] (lit "I love it")
     = Some (Ok (Voting.POSITIVE,
                 [Voting.POSITIVE; Voting.POSITIVE; Voting.NEGATIVE])).
Proof.
  split; [exact ascii_db_respects_space|]. split; [exact ascii_db_compatible|].
  destruct (classifier_follows_specification ascii_db
              ascii_db_respects_space ascii_db_compatible) as [Hvote Hexample].
  split.
  - rewrite Hvote. by vm_compute.
  - apply Hexample.
Defined.

(** C3. For a vote that is not empty, the winner returned is a label
    with the greatest count, and among the labels with that count it is
    the one that comes first in the count map, whose keys are the labels
    in the order in which the votes first name them. *)
Theorem winner_is_first_maximum (vote : pystr) (votes : list pystr) :
  let sa_votes := vote :: votes in
  exists winner i,
    Voting.determine_winner sa_votes = Ok (winner, sa_votes)
    /\ winner ∈ sa_votes
    /\ (forall l, occurrences l sa_votes <= occurrences winner sa_votes)
    /\ (Voting.count_votes [] sa_votes).*1 = first_met sa_votes
    /\ first_met sa_votes !! i = Some winner
    /\ (forall j l, first_met sa_votes !! j = Some l ->
          occurrences l sa_votes = occurrences winner sa_votes -> i <= j).
Proof.
  intros sa_votes.
  destruct (determine_winner_spec vote votes) as (winner & i & Hwin & Hi & Hmax).
  fold sa_votes in Hwin, Hi, Hmax.
  assert (winner ∈ sa_votes) as Hmember.
  { apply elem_of_first_met. by eapply list_elem_of_lookup_2. }
  exists winner, i. split; [done|]. split; [done|]. split; [|split; [|split]].
  - intros l. destruct (decide (l ∈ sa_votes)) as [Hl|Hl].
    + apply elem_of_first_met, list_elem_of_lookup_1 in Hl as [j Hj].
      by destruct (Hmax j l Hj).
    + rewrite (occurrences_absent l sa_votes Hl). lia.
  - rewrite count_votes_items, <- list_fmap_compose.
    apply list_fmap_id.
  - done.
  - intros j l Hj Heq. destruct (Hmax j l Hj) as [_ Hfirst]. by apply Hfirst.
Qed.

(** A tie of one vote each: the label accumulated first wins. *)
Example tie_goes_to_first_label :
  Voting.determine_winner [Voting.NEGATIVE; Voting.POSITIVE; Voting.NEUTRAL]
  = Ok (Voting.NEGATIVE, [Voting.NEGATIVE; Voting.POSITIVE; Voting.NEUTRAL])
  /\ Voting.determine_winner [Voting.NEUTRAL; Voting.POSITIVE; Voting.POSITIVE; Voting.NEUTRAL]
     = Ok (Voting.NEUTRAL, [Voting.NEUTRAL; Voting.POSITIVE; Voting.POSITIVE; Voting.NEUTRAL]).
Proof. split; by vm_compute. Qed.

(** C8. The tally of any list of responses: the counts add up to the
    number of votes, which is at most the number of responses (a response
    that is not classified adds to no count), and the count of each label
    is the number of the votes for it. *)
Theorem tally_counts_surviving_votes (db : unicode_db) (responses : list pystr) :
  upper_respects_space db ->
  exists sa_votes,
    Voting.clean_votes db [] (VStr <$> responses) = Ok sa_votes
    /\ sa_votes = omap (classify_spec db) responses
    /\ sum_list_with snd (Voting.count_votes [] sa_votes) = length sa_votes
    /\ sum_list_with snd (Voting.count_votes [] sa_votes) <= length responses
    /\ (forall l n, (l, n) ∈ Voting.count_votes [] sa_votes ->
          n = occurrences l sa_votes)
    /\ (forall l, odict_get (Voting.count_votes [] sa_votes) l 0
                  = occurrences l sa_votes).
Proof.
  intros Hdb. exists (omap (classify_spec db) responses).
  split; [by rewrite (clean_votes_spec db Hdb)|]. split; [done|].
  set (sa_votes := omap (classify_spec db) responses).
  assert (sum_list_with snd (Voting.count_votes [] sa_votes) = length sa_votes)
    as Htotal by (by rewrite count_votes_total).
  split; [done|]. split; [|split].
  - rewrite Htotal. apply votes_at_most_responses.
  - intros l n Hin. rewrite count_votes_items in Hin.
    apply list_elem_of_fmap in Hin as (l' & Heq & _). by injection Heq as -> ->.
  - intros l. by rewrite count_votes_get.
Qed.

Lemma tally_counts_surviving_votes_witness :
  upper_respects_space ascii_db
  /\ exists sa_votes,
       Voting.clean_votes ascii_db []
         (VStr <$> [lit "Neutral."; lit "Error: Status 500"; lit "neutral";
                    lit "negative!"])
       = Ok sa_votes
       /\ sum_list_with snd (Voting.count_votes [] sa_votes) = 3
       /\ odict_get (Voting.count_votes [] sa_votes) Voting.NEUTRAL 0 = 2.
Proof.
  split; [exact ascii_db_respects_space|].
  destruct (tally_counts_surviving_votes ascii_db
              [lit "Neutral."; lit "Error: Status 500"; lit "neutral"; lit "negative!"]
              ascii_db_respects_space)
    as (sa_votes & Hvotes & Heq & Htotal & _ & _ & Hget).
  exists sa_votes. split; [exact Hvotes|].
  rewrite Htotal, Hget, Heq. split; by vm_compute.
Defined.

Lemma py_strip_blank (db : unicode_db) (response : pystr) :
  Forall (fun c => is_space db c = true) response -> py_strip db response = [].
Proof.
  intros Hblank. unfold py_strip.
  assert (py_lstrip db response = []) as ->; [|done].
  induction Hblank as [|c s Hc _ IH]; simpl; [done|]. by rewrite Hc.
Qed.

(** C9. The classification of a response never raises, whatever the
    string: the first word is only asked of a string that has one. The
    empty string and the strings of white space only are dropped. So
    the whole loop over the responses returns. *)
Theorem classification_is_total (db : unicode_db) :
  upper_respects_space db ->
  (forall sa_votes response,
     returns (Voting.clean_vote db sa_votes (VStr response)))
  /\ (forall sa_votes response,
        Forall (fun c => is_space db c = true) response ->
        Voting.clean_vote db sa_votes (VStr response) = Ok sa_votes)
  /\ (forall responses, returns (Voting.clean_votes db [] (VStr <$> responses))).
Proof.
  intros Hdb. split; [|split].
  - intros sa_votes response. rewrite (clean_vote_spec db Hdb). by eexists.
  - intros sa_votes response Hblank. rewrite (clean_vote_spec db Hdb).
    unfold Voting.sentiment_of. rewrite (py_strip_blank db response Hblank).
    simpl. by rewrite app_nil_r.
  - intros responses. rewrite (clean_votes_spec db Hdb). by eexists.
Qed.

Lemma classification_is_total_witness :
  upper_respects_space ascii_db
  /\ Voting.clean_vote ascii_db [Voting.NEUTRAL] (VStr []) = Ok [Voting.NEUTRAL]
  /\ Voting.clean_vote ascii_db [Voting.NEUTRAL] (VStr (lit "
  	 ")) = Ok [Voting.NEUTRAL]
  /\ returns (Voting.clean_votes ascii_db []
                (VStr <$> [lit "maybe"; []; lit "Error: timeout"])).
Proof.
  split; [exact ascii_db_respects_space|].
  destruct (classification_is_total ascii_db ascii_db_respects_space)
    as (_ & Hblank & Hloop).
  split; [|split].
  - apply Hblank. constructor.
  - apply Hblank. apply (bool_decide_unpack _). by vm_compute.
  - apply Hloop.
Defined.




(** C10. Every vote returned by [analyze_sentiment_voting] is one of
    POSITIVE, NEGATIVE, NEUTRAL; there are at most three votes, one per
    prompt; and a winner that is not UNABLE TO DETERMINE is one of the
    votes. The function does return when the three calls have settled
    with strings; it raises when one of them returned something else. *)
Theorem votes_are_labels_and_winner_is_a_vote (db : unicode_db)
    (net : nat -> session) (order : list nat) (text : pystr) :
  upper_respects_space db ->
  complete_schedule (length Voting.SENTIMENT_PROMPTS) order ->
  (forall winner raw_votes,
     Voting.analyze_sentiment_voting db net order text
     = Some (Ok (winner, raw_votes)) ->
     Forall (fun v => v ∈ [Voting.POSITIVE; Voting.NEGATIVE; Voting.NEUTRAL])
       raw_votes
     /\ length raw_votes <= 3
     /\ length raw_votes <= length Voting.SENTIMENT_PROMPTS
     /\ (winner <> Voting.UNABLE_TO_DETERMINE -> winner ∈ raw_votes))
  /\ exists responses,
       Voting.gather_responses net order text = Some (Ok responses)
       /\ (Forall (fun r => exists s, r = VStr s) responses ->
           exists winner raw_votes,
             Voting.analyze_sentiment_voting db net order text
             = Some (Ok (winner, raw_votes)))
       /\ (~ Forall (fun r => exists s, r = VStr s) responses ->
           exists e,
             Voting.analyze_sentiment_voting db net order text = Some (Raise e)).
Proof.
  intros Hdb Hcomplete.
  destruct (analyze_sentiment_voting_spec db net order text Hdb Hcomplete)
    as (responses & Hgather & Hlen & Hstrings & Hraise).
  assert (forall strings : list pystr,
            Forall (fun r => exists s, r = VStr s) (VStr <$> strings)) as Hall.
  { intros strings. apply Forall_fmap, Forall_forall. intros s _. by exists s. }
  assert (forall before type_name shown after,
            ~ Forall (fun r => exists s, r = VStr s)
                ((VStr <$> before) ++ VOther type_name shown :: after)) as Hsome.
  { intros before type_name shown after Hforall.
    apply Forall_app in Hforall as [_ Hforall].
    apply Forall_cons in Hforall as [[s [=]] _]. }
  destruct (responses_cases responses)
    as [(strings & ->)|(before & type_name & shown & after & ->)].
  - destruct (determine_winner_member (omap (classify_spec db) strings))
      as (winner & Hwin & Hempty & Hmember).
    pose proof (votes_at_most_responses (classify_spec db) strings) as Hmost.
    rewrite length_fmap in Hlen.
    split.
    + intros winner' raw_votes Hreturned.
      rewrite (Hstrings strings eq_refl), Hwin in Hreturned.
      injection Hreturned as <- <-.
      split; [by apply votes_are_labels|].
      split; [rewrite Hlen in Hmost; exact Hmost|].
      split; [by rewrite <- Hlen|].
      intros Hwinner. apply Hmember. intros Hvotes. by apply Hwinner, Hempty.
    + exists (VStr <$> strings). split; [done|]. split.
      * intros _. exists winner, (omap (classify_spec db) strings).
        by rewrite (Hstrings strings eq_refl), Hwin.
      * intros Hnot. destruct Hnot. apply Hall.
  - split.
    + intros winner raw_votes Hreturned.
      rewrite (Hraise _ _ _ _ eq_refl) in Hreturned. discriminate.
    + eexists. split; [done|]. split.
      * intros Hforall. by apply Hsome in Hforall.
      * intros _. eexists. by apply (Hraise _ _ _ _ eq_refl).
Qed.

Lemma votes_are_labels_and_winner_is_a_vote_witness :
  upper_respects_space ascii_db
  /\ complete_schedule (length Voting.SENTIMENT_PROMPTS) [2; 0; 1]
  /\ exists winner raw_votes,
       Voting.analyze_sentiment_voting ascii_db skewed_net [2; 0; 1]
         (lit "What a NEGATIVE day")
       = Some (Ok (winner, raw_votes))
       /\ length raw_votes <= 3
       /\ (winner <> Voting.UNABLE_TO_DETERMINE -> winner ∈ raw_votes).
Proof.
  assert (complete_schedule (length Voting.SENTIMENT_PROMPTS) [2; 0; 1]) as Hcomplete.
  { unfold complete_schedule. apply (bool_decide_unpack _). by vm_compute. }
  split; [exact ascii_db_respects_space|]. split; [exact Hcomplete|].
  destruct (votes_are_labels_and_winner_is_a_vote ascii_db skewed_net [2; 0; 1]
              (lit "What a NEGATIVE day") ascii_db_respects_space Hcomplete)
    as (Hreturned & responses & Hgather & Hstrings & _).
  destruct Hstrings as (winner & raw_votes & Hanalyze).
  { vm_compute in Hgather. injection Hgather as <-.
    repeat constructor; by eexists. }
  destruct (Hreturned winner raw_votes Hanalyze) as (_ & Hthree & _ & Hwinner).
  by exists winner, raw_votes.
Defined.

(** ** The newsletter *)

Example strftime_example : strftime_B_d_Y morning = lit "March 05, 2026".
Proof. reflexivity. Qed.

Lemma section_slots_names : SECTION_SLOTS.*1.*1 = Sectioning.SECTION_PROMPTS.*1.
Proof. by vm_compute. Qed.

Lemma sections_get_slot (topic_sections : gmap pystr pyval)
    (name what default : pystr) :
  default = placeholder what ->
  Sectioning.sections_get topic_sections name default
  = section_slot topic_sections name what.
Proof.
  intros ->. unfold Sectioning.sections_get, section_slot.
  by destruct (topic_sections !! name).
Qed.

(** The document is the title block, the five section blocks in their
    fixed order, and the closing note. *)
Lemma format_newsletter_blocks (now : datetime) (user_topic : pystr)
    (topic_sections : gmap pystr pyval) :
  Sectioning.format_newsletter now user_topic topic_sections
  = title_block (strftime_B_d_Y now) user_topic
    ++ concat (section_blocks topic_sections) ++ closing_note.
Proof.
  unfold Sectioning.format_newsletter.
  rewrite (sections_get_slot _ _ (lit "headlines")) by by vm_compute.
  rewrite (sections_get_slot _ _ (lit "technical content")) by by vm_compute.
  rewrite (sections_get_slot _ _ (lit "industry news")) by by vm_compute.
  rewrite (sections_get_slot _ _ (lit "tools/resources")) by by vm_compute.
  rewrite (sections_get_slot _ _ (lit "analysis")) by by vm_compute.
  unfold section_blocks, SECTION_SLOTS, title_block, closing_note, section_block.
  cbn [map concat]. rewrite app_nil_r. rewrite <- !app_assoc. reflexivity.
Qed.

Lemma contains_concat (x : pystr) (l : list pystr) (before after : pystr) :
  x ∈ l -> contains x (before ++ concat l ++ after) = true.
Proof.
  intros Hx. apply list_elem_of_split in Hx as (l1 & l2 & ->).
  rewrite concat_app. simpl. apply contains_spec.
  exists (before ++ concat l1), (concat l2 ++ after).
  by rewrite <- !app_assoc.
Qed.

Lemma section_block_in_document (now : datetime) (user_topic : pystr)
    (topic_sections : gmap pystr pyval) (name heading what : pystr) :
  (name, heading, what) ∈ SECTION_SLOTS ->
  contains (section_block heading (section_slot topic_sections name what))
    (Sectioning.format_newsletter now user_topic topic_sections) = true.
Proof.
  intros Hslot. rewrite format_newsletter_blocks. apply contains_concat.
  unfold section_blocks. apply list_elem_of_In, in_map_iff.
  exists (name, heading, what). split; [done|]. by apply list_elem_of_In.
Qed.

(** C7. The document is the title, the five sections in their fixed
    order and the closing note. A section that the mapping lacks has the
    placeholder [No X generated.] in its slot, under its heading; a
    section that the mapping has is inserted verbatim under its
    heading (a value that is no string as [str()] shows it). *)
Theorem absent_sections_get_placeholders (now : datetime) (user_topic : pystr)
    (topic_sections : gmap pystr pyval) :
  let document := Sectioning.format_newsletter now user_topic topic_sections in
  document
  = title_block (strftime_B_d_Y now) user_topic
    ++ concat (section_blocks topic_sections) ++ closing_note
  /\ (forall name heading what, (name, heading, what) ∈ SECTION_SLOTS ->
        (topic_sections !! name = None ->
         contains (section_block heading (lit "No " ++ what ++ lit " generated."))
           document = true)
        /\ (forall text, topic_sections !! name = Some text ->
            contains (section_block heading (py_str text)) document = true))
  /\ (topic_sections !! lit "headlines" = None ->
      contains (lit "No headlines generated.") document = true).
Proof.
  intros document. split; [apply format_newsletter_blocks|].
  assert (forall name heading what, (name, heading, what) ∈ SECTION_SLOTS ->
    (topic_sections !! name = None ->
     contains (section_block heading (lit "No " ++ what ++ lit " generated."))
       document = true)
    /\ (forall text, topic_sections !! name = Some text ->
        contains (section_block heading (py_str text)) document = true)) as Hslots.
  { intros name heading what Hslot.
    pose proof (section_block_in_document now user_topic topic_sections
                  name heading what Hslot) as Hblock.
    fold document in Hblock. unfold section_slot in Hblock. split.
    - intros Habsent. by rewrite Habsent in Hblock.
    - intros text Hpresent. by rewrite Hpresent in Hblock. }
  split; [exact Hslots|].
  intros Habsent.
  destruct (Hslots (lit "headlines") (lit "## 📰 Headlines") (lit "headlines"))
    as [Hplaceholder _].
  { unfold SECTION_SLOTS. by apply elem_of_cons; left. }
  specialize (Hplaceholder Habsent).
  apply contains_spec in Hplaceholder as (before & after & ->).
  apply contains_spec. unfold section_block.
  exists (before ++ lit "## 📰 Headlines" ++ NL ++ NL),
         ((NL ++ NL ++ lit "---" ++ NL ++ NL) ++ after).
  change (lit "No headlines generated.")
    with (lit "No " ++ lit "headlines" ++ lit " generated.").
  by rewrite <- !app_assoc.
Qed.

Example newsletter_with_error_section :
  let sections : gmap pystr pyval :=
    {[ lit "headlines" := VStr (lit "R1");
       lit "technical_deep_dive" := VStr (lit "Error: Status 500");
       lit "industry_news" := VStr (lit "R3");
       lit "tools_resources" := VStr (lit "R4");
       lit "opinion_analysis" := VStr (lit "R5") ]} in
  Sectioning.format_newsletter morning (lit "Robotics") sections
  = title_block (lit "March 05, 2026") (lit "Robotics")
    ++ section_block (lit "## 📰 Headlines") (lit "R1")
    ++ section_block (lit "## 🔬 Technical Deep Dive") (lit "Error: Status 500")
    ++ section_block (lit "## 🏢 Industry News") (lit "R3")
    ++ section_block (lit "## 🛠️ Tools & Resources") (lit "R4")
    ++ section_block (lit "## 💭 Analysis & Outlook") (lit "R5")
    ++ closing_note.
Proof. by vm_compute. Qed.

(** C5, as the code has it. The document is determined by the topic, the
    results of the five sections and the calendar date of the clock: two
    runs with the same topic, with mappings that agree on the five
    sections, on the same day, give the same string. *)
Theorem format_newsletter_deterministic_per_day
    (now1 now2 : datetime) (user_topic : pystr)
    (sections1 sections2 : gmap pystr pyval) :
  date_of now1 = date_of now2 ->
  (forall name, name ∈ Sectioning.SECTION_PROMPTS.*1 ->
     sections1 !! name = sections2 !! name) ->
  Sectioning.format_newsletter now1 user_topic sections1
  = Sectioning.format_newsletter now2 user_topic sections2.
Proof.
  intros Hdate Hagree. rewrite !format_newsletter_blocks.
  assert (strftime_B_d_Y now1 = strftime_B_d_Y now2) as ->.
  { unfold strftime_B_d_Y. unfold date_of in Hdate.
    injection Hdate as Hyear Hmonth Hday. by rewrite Hyear, Hmonth, Hday. }
  f_equal. f_equal. f_equal. unfold section_blocks.
  apply map_ext_in. intros [[name heading] what] Hslot.
  unfold section_slot. rewrite Hagree; [done|].
  rewrite <- section_slots_names.
  apply list_elem_of_fmap. exists (name, heading). split; [done|].
  apply list_elem_of_fmap. exists (name, heading, what). split; [done|].
  by apply list_elem_of_In.
Qed.

Lemma format_newsletter_deterministic_per_day_witness :
  date_of morning = date_of evening
  /\ Sectioning.format_newsletter morning (lit "Robotics")
       {[ lit "headlines" := VStr (lit "R1") ]}
     = Sectioning.format_newsletter evening (lit "Robotics")
         {[ lit "headlines" := VStr (lit "R1"); lit "draft" := VStr (lit "unused") ]}.
Proof.
  split; [reflexivity|].
  apply (format_newsletter_deterministic_per_day morning evening); [reflexivity|].
  intros name Hname. apply list_elem_of_In in Hname. simpl in Hname.
  destruct Hname as [<-|[<-|[<-|[<-|[<-|[]]]]]]; by vm_compute.
Defined.

(** C5, as the specification states it, fails: the document carries the
    date of the run, so the same topic and the same mapping give
    different strings on different days. *)
Lemma format_newsletter_differs_next_day :
  date_of morning <> date_of next_day
  /\ Sectioning.format_newsletter morning (lit "Robotics") ∅
     <> Sectioning.format_newsletter next_day (lit "Robotics") ∅.
Proof.
  split.
  - discriminate.
  - intros Heq. vm_compute in Heq. discriminate Heq.
Qed.

(** * Further properties *)

(** ** Who wins a vote *)

Lemma determine_winner_greatest (vote : pystr) (votes : list pystr) :
  exists winner,
    Voting.determine_winner (vote :: votes) = Ok (winner, vote :: votes)
    /\ forall l, occurrences l (vote :: votes) <= occurrences winner (vote :: votes).
Proof.
  destruct (determine_winner_spec vote votes) as (winner & i & Hwin & Hi & Hmax).
  exists winner. split; [done|]. intros l.
  destruct (decide (l ∈ vote :: votes)) as [Hl|Hl].
  - apply elem_of_first_met, list_elem_of_lookup_1 in Hl as [j Hj].
    by destruct (Hmax j l Hj).
  - rewrite (occurrences_absent l _ Hl). lia.
Qed.

Lemma occurrences_two (l l' : pystr) (votes : list pystr) :
  l <> l' -> occurrences l votes + occurrences l' votes <= length votes.
Proof.
  intros Hne. induction votes as [|v votes IH]; [done|].
  rewrite !occurrences_cons. simpl.
  destruct (decide (v = l)) as [Hl|Hl], (decide (v = l')) as [Hl'|Hl'];
    [congruence | lia..].
Qed.

Lemma occurrences_le_length (l : pystr) (votes : list pystr) :
  occurrences l votes <= length votes.
Proof. unfold occurrences. apply length_filter. Qed.


(** X1. The label with strictly more votes than every other label wins,
    wherever its votes stand in the list; so does the label of more than
    half of the votes. *)
Theorem plurality_wins (sa_votes : list pystr) (l : pystr) :
  (forall l', l' <> l -> occurrences l' sa_votes < occurrences l sa_votes)
  \/ length sa_votes < 2 * occurrences l sa_votes ->
  Voting.determine_winner sa_votes = Ok (l, sa_votes).
Proof.
  intros Hmost.
  assert (forall l', l' <> l -> occurrences l' sa_votes < occurrences l sa_votes)
    as Hplurality.
  { destruct Hmost as [Hplurality|Hmajority]; [done|].
    intros l' Hne. pose proof (occurrences_two l' l sa_votes Hne). lia. }
  destruct sa_votes as [|vote votes].
  - specialize (Hplurality (0%N :: l)).
    unfold occurrences in Hplurality. simpl in Hplurality.
    assert (0%N :: l <> l) as Hne; [|specialize (Hplurality Hne); lia].
    intros Heq. apply (f_equal length) in Heq. simpl in Heq. lia.
  - destruct (determine_winner_greatest vote votes) as (winner & -> & Hmax).
    destruct (decide (winner = l)) as [->|Hne]; [done|].
    specialize (Hplurality winner Hne). specialize (Hmax l). lia.
Qed.

Lemma plurality_wins_witness :
  Voting.determine_winner [Voting.NEGATIVE; Voting.POSITIVE; Voting.NEGATIVE]
  = Ok (Voting.NEGATIVE, [Voting.NEGATIVE; Voting.POSITIVE; Voting.NEGATIVE]).
Proof.
  apply plurality_wins. right. vm_compute. lia.
Defined.

(** X2. A tie goes to the first vote: when no label has more votes than the
    label of the first vote, the first vote wins. *)
Theorem first_vote_wins_ties (vote : pystr) (votes : list pystr) :
  (forall l, occurrences l (vote :: votes) <= occurrences vote (vote :: votes)) ->
  Voting.determine_winner (vote :: votes) = Ok (vote, vote :: votes).
Proof.
  intros Hfirst.
  destruct (determine_winner_spec vote votes) as (winner & i & -> & Hi & Hmax).
  destruct (Hmax 0 vote eq_refl) as [Hle Hfirst'].
  specialize (Hfirst winner).
  assert (i = 0) as -> by (apply Nat.le_0_r, Hfirst'; lia).
  simpl in Hi. by injection Hi as ->.
Qed.

Lemma first_vote_wins_ties_witness :
  Voting.determine_winner [Voting.NEUTRAL; Voting.POSITIVE; Voting.POSITIVE; Voting.NEUTRAL]
  = Ok (Voting.NEUTRAL, [Voting.NEUTRAL; Voting.POSITIVE; Voting.POSITIVE; Voting.NEUTRAL]).
Proof.
  apply first_vote_wins_ties. intros l.
  unfold occurrences. rewrite !filter_cons, !filter_nil.
  repeat case_decide; simplify_eq/=; lia.
Defined.

(** X3. The vote over the three prompts, end to end, whatever the order
    in which the calls settle. When the three calls return strings, two
    responses classified alike decide the winner; with no two alike, the
    winner is the vote of the first prompt whose response is classified.
    When a call returns something that is no string, nobody wins: the
    function raises, also when the two other responses agree. *)
Theorem two_of_three_decide (db : unicode_db) (net : nat -> session)
    (order : list nat) (text : pystr) :
  upper_respects_space db ->
  complete_schedule (length Voting.SENTIMENT_PROMPTS) order ->
  exists responses,
    Voting.gather_responses net order text = Some (Ok responses)
    /\ (forall strings, responses = VStr <$> strings ->
          (forall l,
             2 <= occurrences l (omap (classify_spec db) strings) ->
             Voting.analyze_sentiment_voting db net order text
             = Some (Ok (l, omap (classify_spec db) strings)))
          /\ (forall v rest,
                omap (classify_spec db) strings = v :: rest ->
                (forall l, occurrences l (v :: rest) <= 1) ->
                Voting.analyze_sentiment_voting db net order text
                = Some (Ok (v, v :: rest))))
    /\ (forall before type_name shown after,
          responses = (VStr <$> before) ++ VOther type_name shown :: after ->
          Voting.analyze_sentiment_voting db net order text
          = Some (Raise (no_attribute type_name (lit "strip")))).
Proof.
  intros Hdb Hcomplete.
  destruct (analyze_sentiment_voting_spec db net order text Hdb Hcomplete)
    as (responses & Hgather & Hlen & Hstrings & Hraise).
  exists responses. split; [done|]. split; [|exact Hraise].
  intros strings Hresponses. rewrite (Hstrings strings Hresponses).
  pose proof (votes_at_most_responses (classify_spec db) strings) as Hmost.
  rewrite Hresponses, length_fmap in Hlen.
  rewrite Hlen in Hmost. change (length Voting.SENTIMENT_PROMPTS) with 3 in Hmost.
  destruct (omap (classify_spec db) strings) as [|v rest]; split.
  - intros l Htwo. unfold occurrences in Htwo. simpl in Htwo. lia.
  - intros v rest Hvotes. discriminate.
  - intros l Htwo.
    destruct (determine_winner_greatest v rest) as (winner & -> & Hmax).
    destruct (decide (winner = l)) as [->|Hne]; [done|].
    pose proof (occurrences_two winner l (v :: rest) Hne).
    specialize (Hmax l). lia.
  - intros v' rest' Hvotes Hone. injection Hvotes as <- <-.
    destruct (determine_winner_spec v rest) as (winner & i & -> & Hi & Hmax).
    destruct (Hmax 0 v eq_refl) as [_ Hfirst].
    assert (0 < occurrences v (v :: rest)) as Hv.
    { apply occurrences_present. by apply elem_of_cons; left. }
    pose proof (Hone winner) as Hw. pose proof (Hone v) as Hv'.
    assert (0 < occurrences winner (v :: rest)) as Hwinner.
    { apply occurrences_present, elem_of_first_met.
      by eapply list_elem_of_lookup_2. }
    assert (i = 0) as -> by (apply Nat.le_0_r, Hfirst; lia).
    simpl in Hi. by injection Hi as ->.
Qed.

Lemma two_of_three_decide_witness :
  upper_respects_space ascii_db
  /\ complete_schedule (length Voting.SENTIMENT_PROMPTS) [2; 1; 0]
  /\ Voting.analyze_sentiment_voting ascii_db
       (mock_net [lit "neutral"; lit "I cannot tell"; lit "Neutral."]) [2; 1; 0]
       (lit "It is a table.")
     = Some (Ok (Voting.NEUTRAL, [Voting.NEUTRAL; Voting.NEUTRAL])).
Proof.
  assert (complete_schedule (length Voting.SENTIMENT_PROMPTS) [2; 1; 0]) as Hcomplete.
  { unfold complete_schedule. apply (bool_decide_unpack _). by vm_compute. }
  split; [exact ascii_db_respects_space|]. split; [exact Hcomplete|].
  destruct (two_of_three_decide ascii_db
              (mock_net [lit "neutral"; lit "I cannot tell"; lit "Neutral."]) [2; 1; 0]
              (lit "It is a table.") ascii_db_respects_space Hcomplete)
    as (responses & Hgather & Hstrings & _).
  destruct (Hstrings [lit "Neutral."; lit "I cannot tell"; lit "neutral"])
    as [Htwo _].
  { vm_compute in Hgather. injection Hgather as <-. by vm_compute. }
  rewrite (Htwo Voting.NEUTRAL); [by vm_compute|].
  vm_compute. lia.
Defined.

(** ** Error strings in the vote *)

Lemma lit_cons (c : ascii) (s : string) :
  (N_of_ascii c < 128)%N -> lit (String c s) = N_of_ascii c :: lit s.
Proof.
  intros Hc. unfold lit. cbn [list_ascii_of_string map utf8_decode].
  by destruct (N.ltb_spec (N_of_ascii c) 128); [|lia].
Qed.

Lemma lit_uint_numeral (d : Decimal.uint) :
  Forall is_numeral_char (lit (NilEmpty.string_of_uint d)).
Proof.
  induction d; cbn [NilEmpty.string_of_uint];
    [apply Forall_nil_2 | rewrite lit_cons by (vm_compute; reflexivity);
                          apply Forall_cons; split; [right; vm_compute; split; discriminate | done] ..].
Qed.

(** [str(n)] is a numeral: digits, after a sign when [n] is negative. *)
Lemma str_of_int_numeral (z : Z) : Forall is_numeral_char (str_of_int z).
Proof.
  unfold str_of_int, NilZero.string_of_int.
  destruct (Z.to_int z) as [d|d].
  - unfold NilZero.string_of_uint. destruct d; try apply (lit_uint_numeral (_ _)).
    apply Forall_singleton. right. vm_compute. split; discriminate.
  - rewrite lit_cons by (vm_compute; reflexivity).
    apply Forall_cons. split; [by left|].
    unfold NilZero.string_of_uint. destruct d; try apply (lit_uint_numeral (_ _)).
    apply Forall_singleton. right. vm_compute. split; discriminate.
Qed.

Lemma startswith_no_overlap (chars needle a b : pystr) :
  Forall (fun c => c ∈ chars) needle -> Forall (fun c => c ∉ chars) b ->
  startswith (a ++ b) needle = true -> startswith a needle = true.
Proof.
  intros Hneedle Hb. revert a.
  induction Hneedle as [|n needle Hn _ IH]; intros a Hstart.
  - by destruct a.
  - destruct a as [|x a]; simpl in *.
    + destruct b as [|y b]; [done|]. simpl in Hstart.
      apply andb_true_iff in Hstart as [Heq _]. apply N.eqb_eq in Heq as <-.
      by apply Forall_cons in Hb as [Hy _].
    + apply andb_true_iff in Hstart as [Heq Hstart].
      rewrite Heq. by apply IH.
Qed.

(** A needle is not found across the end of a string, nor after it,
    when what follows has none of the needle's characters. *)
Lemma contains_no_overlap (needle a b : pystr) :
  needle <> [] -> Forall (fun c => c ∉ needle) b ->
  contains needle (a ++ b) = true -> contains needle a = true.
Proof.
  intros Hne Hb.
  assert (Forall (fun c => c ∈ needle) needle) as Hneedle.
  { by apply Forall_forall. }
  induction a as [|x a IH]; intros Hin.
  - exfalso. simpl in Hin. apply contains_spec in Hin as (pre & post & Heq).
    destruct needle as [|n needle]; [done|].
    assert (n ∈ b) as Hn.
    { rewrite Heq. apply elem_of_app. right. by apply elem_of_cons; left. }
    apply (proj1 (Forall_forall _ _) Hb n Hn). by apply elem_of_cons; left.
  - cbn [app contains] in Hin. cbn [contains].
    apply orb_true_iff in Hin as [Hstart|Hin]; apply orb_true_iff.
    + left. by apply (startswith_no_overlap needle needle (x :: a) b).
    + right. by apply IH.
Qed.

Lemma contains_middle (needle before s after : pystr) :
  contains needle s = true -> contains needle (before ++ s ++ after) = true.
Proof.
  intros (pre & post & ->)%contains_spec. apply contains_spec.
  exists (before ++ pre), (post ++ after). by rewrite <- !app_assoc.
Qed.

Section StripFacts.
Variable db : unicode_db.

Lemma py_lstrip_suffix (s : pystr) : exists before, s = before ++ py_lstrip db s.
Proof.
  induction s as [|c s [before IH]]; simpl; [by exists []|].
  destruct (is_space db c).
  - exists (c :: before). simpl. by rewrite <- IH.
  - by exists [].
Qed.

Lemma py_rstrip_prefix (s : pystr) : exists after, s = py_rstrip db s ++ after.
Proof.
  unfold py_rstrip. destruct (py_lstrip_suffix (rev s)) as [before Heq].
  exists (rev before). rewrite <- rev_app_distr, <- Heq. by rewrite rev_involutive.
Qed.

(** The stripped string is a part of the string. *)
Lemma py_strip_part (s : pystr) :
  exists before after, s = before ++ py_strip db s ++ after.
Proof.
  unfold py_strip. destruct (py_lstrip_suffix s) as [before Hl].
  destruct (py_rstrip_prefix (py_lstrip db s)) as [after Hr].
  exists before, after. by rewrite <- Hr.
Qed.

Lemma sentiment_contains (l response : pystr) :
  contains l (Voting.sentiment_of db response) = true ->
  contains l (py_upper db response) = true.
Proof.
  unfold Voting.sentiment_of. intros Hin.
  destruct (py_strip_part response) as (before & after & Heq).
  rewrite Heq at 1. unfold py_upper. rewrite !flat_map_app.
  by apply contains_middle.
Qed.

End StripFacts.

Lemma numeral_not_in_label (l : pystr) (c : N) :
  l ∈ labels -> is_numeral_char c -> c ∉ l.
Proof.
  intros Hl Hc Hin. unfold labels in Hl. apply list_elem_of_In in Hin.
  repeat (apply elem_of_cons in Hl as [->|Hl]);
    [| | |by apply elem_of_nil in Hl];
    vm_compute in Hin; unfold is_numeral_char in Hc; intuition lia.
Qed.

Lemma numeral_is_ascii (c : N) : is_numeral_char c -> is_ascii c.
Proof. unfold is_numeral_char, is_ascii. lia. Qed.

Lemma py_upper_numeral (s : pystr) :
  Forall is_numeral_char s -> py_upper ascii_db s = s.
Proof.
  unfold py_upper. induction 1 as [|c s Hc _ IH]; simpl; [done|].
  f_equal; [|exact IH]. unfold ascii_upper, is_numeral_char in *.
  destruct (N.leb_spec 97 c); [exfalso; lia | done].
Qed.

Lemma label_has_no_space (db : unicode_db) (l : pystr) :
  ascii_compatible db -> l ∈ labels ->
  exists first middle last,
    l = first :: middle ++ [last]
    /\ is_space db first = false /\ is_space db last = false.
Proof.
  intros Hascii Hl. unfold labels in Hl.
  repeat (apply elem_of_cons in Hl as [->|Hl]); [| | |by apply elem_of_nil in Hl].
  - exists 80%N, (lit "OSITIV"), 69%N. split; [done|].
    split; [by destruct (Hascii 80%N) as [_ ->] | by destruct (Hascii 69%N) as [_ ->]].
  - exists 78%N, (lit "EGATIV"), 69%N. split; [done|].
    split; [by destruct (Hascii 78%N) as [_ ->] | by destruct (Hascii 69%N) as [_ ->]].
  - exists 78%N, (lit "EUTRA"), 76%N. split; [done|].
    split; [by destruct (Hascii 78%N) as [_ ->] | by destruct (Hascii 76%N) as [_ ->]].
Qed.

(** X4. A reply with a status other than 200 casts no vote: the error string
    that [call_ollama] returns for it contains no label, whatever the
    status code. *)
Theorem status_error_never_votes (db : unicode_db) (s : session)
    (prompt : pystr) (status : Z) (body : json_body) (sa_votes : list pystr) :
  upper_respects_space db -> ascii_compatible db ->
  s Client.OLLAMA_URL (Payload Voting.MODEL prompt false) = Reply status body ->
  status <> 200%Z ->
  exists response,
    Voting.call_ollama s prompt = Ok response
    /\ response = VStr (lit "Error: Status " ++ str_of_int status)
    /\ Voting.clean_vote db sa_votes response = Ok sa_votes.
Proof.
  intros Hspace Hascii Hmet Hstatus.
  destruct (call_ollama_contract Voting.MODEL s prompt)
    as (_ & _ & _ & Hother & _).
  exists (VStr (lit "Error: Status " ++ str_of_int status)).
  split; [by apply (Hother status body)|]. split; [done|].
  rewrite (clean_vote_spec db Hspace).
  destruct (first_label_in _) as [l|] eqn:Hfirst; [exfalso|by rewrite app_nil_r].
  apply first_label_in_label in Hfirst as [Hl Hin].
  apply sentiment_contains in Hin.
  pose proof (str_of_int_numeral status) as Hnum.
  rewrite (py_upper_ascii db Hascii) in Hin.
  2:{ apply Forall_app. split.
      - apply (bool_decide_unpack _). by vm_compute.
      - eapply Forall_impl; [exact Hnum|]. apply numeral_is_ascii. }
  unfold py_upper in Hin. rewrite flat_map_app in Hin.
  fold (py_upper ascii_db (str_of_int status)) in Hin.
  rewrite (py_upper_numeral _ Hnum) in Hin.
  apply contains_no_overlap in Hin.
  - unfold labels in Hl.
    repeat (apply elem_of_cons in Hl as [->|Hl]);
      [| | |by apply elem_of_nil in Hl]; by vm_compute in Hin.
  - intros ->. apply list_elem_of_In in Hl. vm_compute in Hl.
    intuition discriminate.
  - eapply Forall_impl; [exact Hnum|]. intros c Hc. by apply numeral_not_in_label.
Qed.

Lemma status_error_never_votes_witness :
  upper_respects_space ascii_db /\ ascii_compatible ascii_db
  /\ exists response,
       Voting.call_ollama (skewed_net 1) (lit "Is this POSITIVE?") = Ok response
       /\ response = VStr (lit "Error: Status 503")
       /\ Voting.clean_vote ascii_db [Voting.NEUTRAL] response = Ok [Voting.NEUTRAL].
Proof.
  split; [exact ascii_db_respects_space|]. split; [exact ascii_db_compatible|].
  destruct (status_error_never_votes ascii_db (skewed_net 1) (lit "Is this POSITIVE?")
              503 (JsonFault (Exn (lit "ContentTypeError") (lit "unexpected mimetype")))
              [Voting.NEUTRAL] ascii_db_respects_space ascii_db_compatible)
    as (response & Hcall & Heq & Hvote); [reflexivity | discriminate |].
  exists response. split; [exact Hcall|]. split; [|exact Hvote].
  rewrite Heq. by vm_compute.
Defined.

Lemma contains_rev (needle s : pystr) :
  contains needle s = true -> contains (rev needle) (rev s) = true.
Proof.
  intros (before & after & ->)%contains_spec. apply contains_spec.
  exists (rev after), (rev before). by rewrite !rev_app_distr, <- app_assoc.
Qed.

Section StripKeeps.
Variable db : unicode_db.

Lemma py_lstrip_keeps (first : N) (rest s : pystr) :
  is_space db first = false ->
  contains (first :: rest) s = true ->
  contains (first :: rest) (py_lstrip db s) = true.
Proof.
  intros Hfirst. induction s as [|c s IH]; [done|].
  intros Hin. cbn [py_lstrip]. destruct (is_space db c) eqn:Hc; [|done].
  apply IH. cbn [contains] in Hin. apply orb_true_iff in Hin as [Hstart|Hin]; [|done].
  simpl in Hstart. apply andb_true_iff in Hstart as [Heq _].
  apply N.eqb_eq in Heq as ->. congruence.
Qed.

Lemma py_rstrip_keeps (body : pystr) (last : N) (s : pystr) :
  is_space db last = false ->
  contains (body ++ [last]) s = true ->
  contains (body ++ [last]) (py_rstrip db s) = true.
Proof.
  intros Hlast Hin. unfold py_rstrip.
  rewrite <- (rev_involutive (body ++ [last])). apply contains_rev.
  rewrite rev_app_distr. simpl. apply py_lstrip_keeps; [done|].
  apply contains_rev in Hin. by rewrite rev_app_distr in Hin.
Qed.

(** Stripping keeps every part of the string that neither starts nor
    ends with white space. *)
Lemma py_strip_keeps (first : N) (middle : pystr) (last : N) (s : pystr) :
  is_space db first = false -> is_space db last = false ->
  contains (first :: middle ++ [last]) s = true ->
  contains (first :: middle ++ [last]) (py_strip db s) = true.
Proof.
  intros Hfirst Hlast Hin. unfold py_strip.
  change (first :: middle ++ [last]) with ((first :: middle) ++ [last]).
  apply py_rstrip_keeps; [done|]. by apply py_lstrip_keeps.
Qed.

End StripKeeps.

(** X5. A failed request can cast a vote: when the message of the exception,
    in upper case, contains a label, the error string that [call_ollama]
    returns for it is classified like an answer of the model, and as
    POSITIVE when POSITIVE is the label. *)
Theorem error_text_can_vote (db : unicode_db) (s : session) (prompt : pystr)
    (e : exn) (l : pystr) (sa_votes : list pystr) :
  upper_respects_space db -> ascii_compatible db ->
  s Client.OLLAMA_URL (Payload Voting.MODEL prompt false) = PostFault e ->
  l ∈ labels -> contains l (py_upper db (exn_str e)) = true ->
  exists response vote,
    Voting.call_ollama s prompt = Ok response
    /\ response = VStr (lit "Error: " ++ exn_str e)
    /\ Voting.clean_vote db sa_votes response = Ok (sa_votes ++ [vote])
    /\ vote ∈ labels
    /\ (l = Voting.POSITIVE -> vote = Voting.POSITIVE).
Proof.
  intros Hspace Hascii Hmet Hl Hin.
  destruct (call_ollama_contract Voting.MODEL s prompt)
    as (_ & _ & _ & _ & Hfault & _).
  exists (VStr (lit "Error: " ++ exn_str e)).
  assert (contains l (Voting.sentiment_of db (lit "Error: " ++ exn_str e)) = true)
    as Hsentiment.
  { unfold Voting.sentiment_of. rewrite <- (py_strip_upper db Hspace).
    destruct (label_has_no_space db l Hascii Hl)
      as (first & middle & last & -> & Hfirst & Hlast).
    apply py_strip_keeps; [done..|].
    rewrite (py_upper_app db).
    rewrite <- (app_nil_r (py_upper db (exn_str e))).
    by apply contains_middle. }
  destruct (first_label_in (Voting.sentiment_of db (lit "Error: " ++ exn_str e)))
    as [vote|] eqn:Hfirst.
  - exists vote. split; [by apply Hfault|]. split; [done|].
    split; [by rewrite (clean_vote_spec db Hspace), Hfirst|].
    split; [by apply first_label_in_label in Hfirst as [Hvote _]|].
    intros ->. rewrite first_label_in_cases, Hsentiment in Hfirst.
    by injection Hfirst as <-.
  - by rewrite (first_label_in_none _ l Hfirst Hl) in Hsentiment.
Qed.

Lemma error_text_can_vote_witness :
  upper_respects_space ascii_db /\ ascii_compatible ascii_db
  /\ Voting.clean_vote ascii_db []
       (VStr (lit "Error: Cannot connect to host positive.example.org:11434"))
     = Ok [Voting.POSITIVE].
Proof.
  split; [exact ascii_db_respects_space|]. split; [exact ascii_db_compatible|].
  destruct (error_text_can_vote ascii_db
              (fun _ _ => PostFault (Exn (lit "ClientConnectorError")
                 (lit "Cannot connect to host positive.example.org:11434")))
              (lit "How are you?")
              (Exn (lit "ClientConnectorError")
                 (lit "Cannot connect to host positive.example.org:11434"))
              Voting.POSITIVE []
              ascii_db_respects_space ascii_db_compatible eq_refl)
    as (response & vote & Hcall & _ & Hvote & _ & Hpositive).
  - unfold labels. by apply elem_of_cons; left.
  - by vm_compute.
  - rewrite (Hpositive eq_refl) in Hvote.
    vm_compute in Hcall. injection Hcall as <-. exact Hvote.
Defined.

(** ** White space around a response *)

Lemma py_lstrip_app (db : unicode_db) (s t : pystr) :
  py_lstrip db (s ++ t)
  = match py_lstrip db s with
    | [] => py_lstrip db t
    | _ :: _ => py_lstrip db s ++ t
    end.
Proof.
  induction s as [|c s IH]; simpl; [by destruct (py_lstrip db t)|].
  by destruct (is_space db c).
Qed.

Lemma py_strip_padding (db : unicode_db) (before response after : pystr) :
  Forall (fun c => is_space db c = true) before ->
  Forall (fun c => is_space db c = true) after ->
  py_strip db (before ++ response ++ after) = py_strip db response.
Proof.
  intros Hbefore Hafter. unfold py_strip.
  rewrite (py_lstrip_spaces db before _ Hbefore), py_lstrip_app.
  destruct (py_lstrip db response) as [|c s] eqn:Hresponse.
  - assert (py_lstrip db after = []) as ->; [|done].
    rewrite <- (app_nil_r after). by rewrite (py_lstrip_spaces db after [] Hafter).
  - by apply py_rstrip_spaces.
Qed.

(** X6. White space around a response does not change its vote: a response
    and the same response between runs of white space (a trailing line
    feed, an indentation) leave the votes the same. *)
Theorem padding_does_not_change_vote (db : unicode_db)
    (sa_votes : list pystr) (before response after : pystr) :
  Forall (fun c => is_space db c = true) before ->
  Forall (fun c => is_space db c = true) after ->
  Voting.clean_vote db sa_votes (VStr (before ++ response ++ after))
  = Voting.clean_vote db sa_votes (VStr response).
Proof.
  intros Hbefore Hafter. unfold Voting.clean_vote.
  cbn [str_method mbind result_bind].
  assert (Voting.sentiment_of db (before ++ response ++ after)
          = Voting.sentiment_of db response) as ->; [|done].
  unfold Voting.sentiment_of. by rewrite py_strip_padding.
Qed.

Lemma padding_does_not_change_vote_witness :
  Voting.clean_vote ascii_db [] (VStr (lit "
  " ++ lit "Negative" ++ lit "

"))
  = Voting.clean_vote ascii_db [] (VStr (lit "Negative")).
Proof.
  apply padding_does_not_change_vote;
    apply (bool_decide_unpack _); by vm_compute.
Defined.

(** ** From the calls to the document *)









(** ** All or nothing *)

Section SettleUntouched.
Context {A : Type}.
Variable tasks : list (coroutine A).
Hypothesis tasks_return : forall i c p, tasks !! i = Some c -> returns (c p).

Lemma settle_untouched (order : list nat) :
  forall (p : nat) (slots : list (option A)),
    exists slots',
      settle tasks p order slots = Ok slots'
      /\ forall i, i ∉ order -> slots' !! i = slots !! i.
Proof.
  induction order as [|i order IH]; intros p slots; simpl.
  - by exists slots.
  - destruct (tasks !! i) as [c|] eqn:Hc.
    + destruct (tasks_return i c p Hc) as [a ->].
      destruct (IH (S p) (<[i:=Some a]> slots)) as (slots' & -> & Hout).
      exists slots'. split; [done|]. intros j [Hne Hj]%not_elem_of_cons.
      rewrite (Hout j Hj). by apply list_lookup_insert_ne.
    + destruct (IH (S p) slots) as (slots' & -> & Hout).
      exists slots'. split; [done|]. intros j [_ Hj]%not_elem_of_cons.
      by apply Hout.
Qed.

(** [gather] over awaitables that never raise does not return while one
    of them has not settled. *)
Lemma gather_waits (order : list nat) (i : nat) :
  i < length tasks -> i ∉ order -> gather order tasks = None.
Proof.
  intros Hi Hpending. unfold gather.
  destruct (settle_untouched order 0 (replicate (length tasks) None))
    as (slots & -> & Hout).
  assert (mapM id slots = None) as ->; [|done].
  apply mapM_None, Exists_exists. exists None. split; [|done].
  apply list_elem_of_lookup. exists i.
  rewrite (Hout i Hpending). by apply lookup_replicate_2.
Qed.

End SettleUntouched.

(** X9. Neither function returns a partial result: while one of the calls
    has not settled, [analyze_sentiment_voting] and
    [generate_newsletter_sections] return nothing, and no failure of
    another call makes them return early. *)
Theorem no_partial_results (db : unicode_db) (net : nat -> session)
    (order3 order5 : list nat) (text user_topic : pystr) (i3 i5 : nat) :
  i3 < length Voting.SENTIMENT_PROMPTS -> i3 ∉ order3 ->
  i5 < length Sectioning.SECTION_PROMPTS -> i5 ∉ order5 ->
  Voting.analyze_sentiment_voting db net order3 text = None
  /\ Sectioning.generate_newsletter_sections net order5 user_topic = None.
Proof.
  intros Hi3 Hpending3 Hi5 Hpending5. split.
  - unfold Voting.analyze_sentiment_voting, Voting.gather_responses.
    destruct (sentiment_prompts_format text) as [prompts Hfmt].
    rewrite (voting_make_tasks net text _ prompts Hfmt []), app_nil_l.
    rewrite (gather_waits (calls Voting.call_ollama net prompts)) with (i := i3);
      [done| | |done].
    + intros i c p Hc. unfold calls in Hc.
      apply list_lookup_fmap_Some in Hc as (prompt & -> & _).
      apply call_ollama_returns.
    + unfold calls. rewrite length_map.
      by rewrite <- (Forall2_length _ _ _ Hfmt).
  - unfold Sectioning.generate_newsletter_sections.
    destruct (section_prompts_format user_topic) as [prompts Hfmt].
    rewrite (sectioning_make_tasks net user_topic _ prompts Hfmt [] []), !app_nil_l.
    rewrite (gather_waits (calls Sectioning.call_ollama net prompts)) with (i := i5);
      [done| | |done].
    + intros i c p Hc. unfold calls in Hc.
      apply list_lookup_fmap_Some in Hc as (prompt & -> & _).
      apply call_ollama_returns.
    + unfold calls. rewrite length_map.
      by rewrite <- (Forall2_length _ _ _ Hfmt).
Qed.

Lemma no_partial_results_witness :
  Voting.analyze_sentiment_voting ascii_db skewed_net [0; 2] (lit "fine") = None
  /\ Sectioning.generate_newsletter_sections skewed_net [4; 3; 2; 1] (lit "Robotics")
     = None.
Proof.
  apply (no_partial_results ascii_db skewed_net [0; 2] [4; 3; 2; 1]
           (lit "fine") (lit "Robotics") 1 0).
  - vm_compute. lia.
  - apply (bool_decide_unpack _). by vm_compute.
  - vm_compute. lia.
  - apply (bool_decide_unpack _). by vm_compute.
Defined.

(** ** The connection test of the sidebar *)

Lemma write_models_spec (models : list model_json) :
  forall shown,
    write_models models shown
    = (shown ++ map model_line (named_prefix models).1,
       match (named_prefix models).2 with
       | None => Ok tt
       | Some e => Raise e
       end).
Proof.
  induction models as [|model models IH]; intros shown.
  - simpl. by rewrite app_nil_r.
  - cbn [write_models named_prefix]. unfold mbind, ui_bind, ui_lift, st_show.
    destruct (model_name model) as [name|e]; simpl.
    + rewrite IH. by rewrite <- app_assoc.
    + by rewrite app_nil_r.
Qed.

Lemma named_prefix_all (models : list model_json) (names : list pystr) :
  Forall2 (fun model name => model_name model = Ok name) models names ->
  named_prefix models = (names, None).
Proof.
  induction 1 as [|model name models names Hname _ IH]; simpl; [done|].
  by rewrite Hname, IH.
Qed.

(** What the block shows on status 200, by the body of the reply. *)
Lemma connection_test_200 (get : pystr -> Z -> get_outcome) (body : tags_body)
    (shown : list element) :
  get (lit "http://localhost:11434/api/tags") 5%Z = GetReply 200 body ->
  test_ollama_connection (Ok tt) get shown
  = (shown ++ StSuccess RUNNING
       :: match body with
          | TagsFault _ | TagsParsed (TagsOther _) => [StError CANNOT_CONNECT]
          | TagsParsed (TagsObject None) | TagsParsed (TagsObject (Some [])) => []
          | TagsParsed (TagsObject (Some models)) =>
            StWrite (lit "Available models:")
            :: map model_line (named_prefix models).1
            ++ match (named_prefix models).2 with
               | None => []
               | Some _ => [StError CANNOT_CONNECT]
               end
          end,
     Ok tt).
Proof.
  intros Hmet. unfold test_ollama_connection, try_except_all.
  unfold mbind at 1 2, ui_bind at 1 2, ui_lift at 1 2, requests_get.
  rewrite Hmet. cbn [Z.eqb Pos.eqb].
  unfold mbind at 1 2 3, ui_bind at 1 2 3, ui_lift, st_show,
    tags_response_json, get_models.
  destruct body as [[[[|model models]|]|e]|e]; try done;
    try by rewrite <- app_assoc.
  unfold mbind, ui_bind. rewrite write_models_spec.
  remember (named_prefix (model :: models)) as prefix eqn:Hprefix.
  clear Hprefix. destruct prefix as [names [e|]]; cbn [fst snd];
    rewrite <- !app_assoc; simpl; by rewrite ?app_nil_r.
Qed.

Lemma connection_test_import_fault (get : pystr -> Z -> get_outcome) (e : exn)
    (shown : list element) :
  test_ollama_connection (Raise e) get shown
  = (shown ++ [StError CANNOT_CONNECT], Ok tt).
Proof. reflexivity. Qed.

Lemma connection_test_get_fault (get : pystr -> Z -> get_outcome) (e : exn)
    (shown : list element) :
  get (lit "http://localhost:11434/api/tags") 5%Z = GetFault e ->
  test_ollama_connection (Ok tt) get shown
  = (shown ++ [StError CANNOT_CONNECT], Ok tt).
Proof.
  intros Hmet. unfold test_ollama_connection, try_except_all.
  unfold mbind at 1 2, ui_bind at 1 2, ui_lift at 1 2, requests_get.
  by rewrite Hmet.
Qed.

Lemma connection_test_status (get : pystr -> Z -> get_outcome) (status_code : Z)
    (body : tags_body) (shown : list element) :
  get (lit "http://localhost:11434/api/tags") 5%Z = GetReply status_code body ->
  status_code <> 200%Z ->
  test_ollama_connection (Ok tt) get shown
  = (shown ++ [StError RESPONDED_WITH_ERROR], Ok tt).
Proof.
  intros Hmet Hstatus. unfold test_ollama_connection, try_except_all.
  unfold mbind at 1 2, ui_bind at 1 2, ui_lift at 1 2, requests_get.
  rewrite Hmet. by destruct (Z.eqb_spec status_code 200).
Qed.

(** On status 200 the success message comes first, then lines written
    with [st.write], then the message of the handler when the reply is
    malformed. *)
Lemma connection_test_200_shape (get : pystr -> Z -> get_outcome)
    (body : tags_body) (shown : list element) :
  get (lit "http://localhost:11434/api/tags") 5%Z = GetReply 200 body ->
  exists written,
    Forall (fun e => exists s, e = StWrite s) written
    /\ test_ollama_connection (Ok tt) get shown
       = (shown ++ StSuccess RUNNING :: written
            ++ (if decide (malformed body) then [StError CANNOT_CONNECT] else []),
          Ok tt).
Proof.
  intros Hmet. rewrite (connection_test_200 get body shown Hmet).
  assert (forall names, Forall (fun e => exists s, e = StWrite s)
                          (map model_line names)) as Hlines.
  { intros names. apply List.Forall_map, Forall_forall. intros name _.
    by eexists. }
  destruct (decide (malformed body)) as [H|H];
    destruct body as [[[[|model models]|]|e]|e]; unfold malformed in H;
    try (by destruct H); try (exists []; split; [constructor|done]).
  - remember (named_prefix (model :: models)) as prefix eqn:Hprefix.
    clear Hprefix. destruct prefix as [names [e|]]; cbn [fst snd] in *.
    + exists (StWrite (lit "Available models:") :: map model_line names).
      split; [constructor; [by eexists|apply Hlines]|done].
    + by destruct H as [? [=]].
  - remember (named_prefix (model :: models)) as prefix eqn:Hprefix.
    clear Hprefix. destruct prefix as [names [e|]]; cbn [fst snd] in *.
    + destruct H. by eexists.
    + exists (StWrite (lit "Available models:") :: map model_line names).
      split; [constructor; [by eexists|apply Hlines]|]. by rewrite !app_nil_r.
Qed.

Lemma handler_messages_differ : RESPONDED_WITH_ERROR <> CANNOT_CONNECT.
Proof. intros H. by vm_compute in H. Qed.

(** X10. The connection test never raises and adds at least one element
    to what the sidebar shows. The success message is among them exactly
    when the request met a reply with status 200; the message that Ollama
    responded with an error exactly when it met a reply with another
    status; the message that Ollama cannot be reached exactly when the
    import or the request raised, or the reply with status 200 is
    malformed. *)
Theorem connection_test_reports (import_requests : result unit)
    (get : pystr -> Z -> get_outcome) (shown : list element) :
  let met := get (lit "http://localhost:11434/api/tags") 5%Z in
  exists new,
    test_ollama_connection import_requests get shown = (shown ++ new, Ok tt)
    /\ new <> []
    /\ (StSuccess RUNNING ∈ new
        <-> import_requests = Ok tt /\ exists body, met = GetReply 200 body)
    /\ (StError RESPONDED_WITH_ERROR ∈ new
        <-> import_requests = Ok tt
            /\ exists status_code body,
                 met = GetReply status_code body /\ status_code <> 200%Z)
    /\ (StError CANNOT_CONNECT ∈ new
        <-> (exists e, import_requests = Raise e)
            \/ import_requests = Ok tt
               /\ ((exists e, met = GetFault e)
                   \/ exists body, met = GetReply 200 body /\ malformed body)).
Proof.
  intros met. pose proof handler_messages_differ as Hdiffer.
  destruct import_requests as [[]|e].
  2:{ exists [StError CANNOT_CONNECT].
      split; [apply connection_test_import_fault|].
      split; [discriminate|]. rewrite !list_elem_of_singleton.
      revert Hdiffer.
      generalize RUNNING RESPONDED_WITH_ERROR CANNOT_CONNECT.
      intros running responded cannot Hdiffer.
      split; [|split]; split.
      - intros [=].
      - intros [[=] _].
      - intros [= H]. by destruct Hdiffer.
      - intros [[=] _].
      - intros _. left. by exists e.
      - reflexivity. }
  destruct met as [e|status_code body] eqn:Hmet.
  { exists [StError CANNOT_CONNECT].
    split; [by eapply connection_test_get_fault|].
    split; [discriminate|]. rewrite !list_elem_of_singleton.
    revert Hdiffer.
    generalize RUNNING RESPONDED_WITH_ERROR CANNOT_CONNECT.
    intros running responded cannot Hdiffer.
    split; [|split]; split.
    - intros [=].
    - intros [_ [? [=]]].
    - intros [= H]. by destruct Hdiffer.
    - intros [_ (? & ? & [=] & _)].
    - intros _. right. split; [reflexivity|]. left. by exists e.
    - reflexivity. }
  destruct (decide (status_code = 200%Z)) as [->|Hstatus].
  2:{ exists [StError RESPONDED_WITH_ERROR].
      split; [by eapply connection_test_status|].
      split; [discriminate|]. rewrite !list_elem_of_singleton.
      revert Hdiffer.
      generalize RUNNING RESPONDED_WITH_ERROR CANNOT_CONNECT.
      intros running responded cannot Hdiffer.
      split; [|split]; split.
      - intros [=].
      - intros [_ [? [= ? _]]]. by destruct Hstatus.
      - intros _. split; [reflexivity|]. by exists status_code, body.
      - reflexivity.
      - intros [= H]. destruct Hdiffer. by symmetry.
      - intros [[? [=]]|[_ [[? [=]]|(? & [= ? _] & _)]]]. by destruct Hstatus. }
  destruct (connection_test_200_shape get body shown Hmet)
    as (written & Hwritten & ->).
  eexists. split; [reflexivity|]. split; [discriminate|].
  assert (forall e, (forall s, e <> StWrite s) -> e ∉ written) as Hnot.
  { intros e He Hin. rewrite Forall_forall in Hwritten.
    destruct (Hwritten e Hin) as [s ->]. by apply (He s). }
  rewrite !elem_of_cons, !elem_of_app.
  revert Hdiffer Hnot.
  generalize RUNNING RESPONDED_WITH_ERROR CANNOT_CONNECT.
  intros running responded cannot Hdiffer Hnot.
  split; [|split]; split.
  - intros _. split; [reflexivity|]. by exists body.
  - intros _. by left.
  - intros [[=]|[Hin|Hin]].
    + apply Hnot in Hin; [destruct Hin|discriminate].
    + case_decide; [|by apply elem_of_nil in Hin].
      apply list_elem_of_singleton in Hin as [= Heq]. by destruct Hdiffer.
  - intros [_ (? & ? & [= <- _] & Hstatus)]. by destruct Hstatus.
  - intros [[=]|[Hin|Hin]].
    + apply Hnot in Hin; [destruct Hin|discriminate].
    + case_decide; [|by apply elem_of_nil in Hin].
      right. split; [reflexivity|]. right. by exists body.
  - intros [[? [=]]|[_ [[? [=]]|(? & [= <-] & Hbad)]]].
    right. right. rewrite decide_True by exact Hbad. by left.
Qed.

Lemma named_prefix_until (good : list model_json) (names : list pystr)
    (bad : model_json) (rest : list model_json) (e : exn) :
  Forall2 (fun model name => model_name model = Ok name) good names ->
  model_name bad = Raise e ->
  named_prefix (good ++ bad :: rest) = (names, Some e).
Proof.
  intros Hgood Hbad.
  induction Hgood as [|model name good names Hname _ IH]; simpl.
  - by rewrite Hbad.
  - by rewrite Hname, IH.
Qed.

(** X11. When the server answers with status 200 and a list of models
    that all have a name, the sidebar shows the success message and, if
    the list is not empty, the heading and one line per model, in the
    order of the reply; nothing else, and no error. *)
Theorem models_are_listed_in_order (get : pystr -> Z -> get_outcome)
    (models : list model_json) (names : list pystr) (shown : list element) :
  get (lit "http://localhost:11434/api/tags") 5%Z
    = GetReply 200 (TagsParsed (TagsObject (Some models))) ->
  Forall2 (fun model name => model_name model = Ok name) models names ->
  test_ollama_connection (Ok tt) get shown
  = (shown ++ StSuccess RUNNING
       :: match names with
          | [] => []
          | _ :: _ =>
            StWrite (lit "Available models:")
            :: map (fun name => StWrite (lit "- " ++ name)) names
          end,
     Ok tt).
Proof.
  intros Hmet Hnames. rewrite (connection_test_200 get _ shown Hmet).
  rewrite (named_prefix_all models names Hnames). cbn [fst snd].
  destruct Hnames as [|model name models names Hname Hnames]; [done|].
  by rewrite app_nil_r.
Qed.

Lemma models_are_listed_in_order_witness :
  test_ollama_connection (Ok tt)
    (fun _ _ => tags_reply [lit "gemma3"; lit "llama3"]) []
  = ([StSuccess RUNNING; StWrite (lit "Available models:");
      StWrite (lit "- " ++ lit "gemma3"); StWrite (lit "- " ++ lit "llama3")],
     Ok tt).
Proof.
  apply (models_are_listed_in_order
           (fun _ _ => tags_reply [lit "gemma3"; lit "llama3"])
           [ModelObject {[ lit "name" := VStr (lit "gemma3") ]};
            ModelObject {[ lit "name" := VStr (lit "llama3") ]}]
           [lit "gemma3"; lit "llama3"] []).
  - reflexivity.
  - repeat constructor; by vm_compute.
Defined.

(** X12. When the reply with status 200 lists a model from which the
    name cannot be read, the sidebar shows the success message, the
    heading and the models before that one, and then the error that
    Ollama cannot be reached: the models after it are not shown, and both
    the success and the error stay on the page. *)
Theorem unnamed_model_ends_the_list (get : pystr -> Z -> get_outcome)
    (good : list model_json) (names : list pystr) (bad : model_json)
    (rest : list model_json) (e : exn) (shown : list element) :
  get (lit "http://localhost:11434/api/tags") 5%Z
    = GetReply 200 (TagsParsed (TagsObject (Some (good ++ bad :: rest)))) ->
  Forall2 (fun model name => model_name model = Ok name) good names ->
  model_name bad = Raise e ->
  test_ollama_connection (Ok tt) get shown
  = (shown ++ StSuccess RUNNING
       :: StWrite (lit "Available models:")
       :: map (fun name => StWrite (lit "- " ++ name)) names
       ++ [StError CANNOT_CONNECT],
     Ok tt).
Proof.
  intros Hmet Hgood Hbad. rewrite (connection_test_200 get _ shown Hmet).
  rewrite (named_prefix_until good names bad rest e Hgood Hbad).
  cbn [fst snd]. by destruct good.
Qed.

Lemma unnamed_model_ends_the_list_witness :
  test_ollama_connection (Ok tt)
    (fun _ _ => GetReply 200 (TagsParsed (TagsObject (Some
       [ModelObject {[ lit "name" := VStr (lit "gemma3") ]};
        ModelObject {[ lit "model" := VStr (lit "llama3") ]};
        ModelObject {[ lit "name" := VStr (lit "phi3") ]}])))) []
  = ([StSuccess RUNNING; StWrite (lit "Available models:");
      StWrite (lit "- " ++ lit "gemma3"); StError CANNOT_CONNECT],
     Ok tt).
Proof.
  apply (unnamed_model_ends_the_list _
           [ModelObject {[ lit "name" := VStr (lit "gemma3") ]}] [lit "gemma3"]
           (ModelObject {[ lit "model" := VStr (lit "llama3") ]})
           [ModelObject {[ lit "name" := VStr (lit "phi3") ]}]
           (Exn (lit "KeyError") (lit "'name'")) []).
  - reflexivity.
  - repeat constructor; by vm_compute.
  - by vm_compute.
Defined.

(** ** The votes on the page *)

Lemma write_votes_middle (before : list pystr) (vote : pystr) (after : list pystr) :
  forall start,
    write_votes start (before ++ vote :: after) !! length before
    = Some (analyzer_line (start + Z.of_nat (length before)) vote).
Proof.
  induction before as [|b before IH]; intros start.
  - simpl. by rewrite Z.add_0_r.
  - cbn [app write_votes length]. rewrite lookup_cons. rewrite IH.
    do 2 f_equal. lia.
Qed.

Lemma length_write_votes (votes : list pystr) :
  forall start, length (write_votes start votes) = length votes.
Proof.
  induction votes as [|vote votes IH]; intros start; [done|].
  simpl. by rewrite IH.
Qed.

(** X13. The number after [Analyzer] on the page is the rank of the vote
    among the votes that were counted, not the number of the prompt.
    When the three calls return strings, the function returns, one line
    is written per vote, and the vote of the response of prompt [j]
    stands on the line numbered one more than the number of earlier
    responses that gave a vote; so after a response without a vote every
    later analyzer is shown under a smaller number. When a call returns
    something that is no string, the function raises and the page does
    not come to write a line. *)
Theorem analyzer_number_is_rank_of_vote (db : unicode_db) (net : nat -> session)
    (order : list nat) (text : pystr) :
  upper_respects_space db ->
  complete_schedule (length Voting.SENTIMENT_PROMPTS) order ->
  exists responses,
    Voting.gather_responses net order text = Some (Ok responses)
    /\ (forall strings, responses = VStr <$> strings ->
          exists winner votes,
            Voting.analyze_sentiment_voting db net order text
            = Some (Ok (winner, votes))
            /\ length (write_votes 1 votes) = length votes
            /\ forall j response vote,
                 strings !! j = Some response ->
                 Voting.clean_vote db [] (VStr response) = Ok [vote] ->
                 exists before,
                   Voting.clean_votes db [] (VStr <$> take j strings) = Ok before
                   /\ length before <= j
                   /\ write_votes 1 votes !! length before
                      = Some (analyzer_line (1 + Z.of_nat (length before)) vote))
    /\ (forall before type_name shown after,
          responses = (VStr <$> before) ++ VOther type_name shown :: after ->
          Voting.analyze_sentiment_voting db net order text
          = Some (Raise (no_attribute type_name (lit "strip")))).
Proof.
  intros Hdb Hcomplete.
  destruct (analyze_sentiment_voting_spec db net order text Hdb Hcomplete)
    as (responses & Hgather & _ & Hstrings & Hraise).
  exists responses. split; [done|]. split; [|exact Hraise].
  intros strings Hresponses.
  destruct (determine_winner_member (omap (classify_spec db) strings))
    as (winner & Hwinner & _).
  exists winner, (omap (classify_spec db) strings).
  split; [by rewrite (Hstrings strings Hresponses), Hwinner|].
  split; [apply length_write_votes|].
  intros j response vote Hj Hvote.
  exists (omap (classify_spec db) (take j strings)).
  split; [by rewrite (clean_votes_spec db Hdb)|].
  split.
  { etrans; [apply votes_at_most_responses|]. rewrite length_take. lia. }
  rewrite (clean_vote_spec db Hdb) in Hvote.
  rewrite <- (classify_spec_first_label db Hdb) in Hvote.
  destruct (classify_spec db response) as [v|] eqn:Hclass; [|done].
  injection Hvote as ->.
  assert (omap (classify_spec db) strings
          = omap (classify_spec db) (take j strings)
            ++ vote :: omap (classify_spec db) (drop (S j) strings)) as ->.
  { rewrite <- (take_drop_middle strings j response Hj) at 1.
    rewrite omap_app. f_equal.
    change (omap (classify_spec db) (response :: drop (S j) strings))
      with (match classify_spec db response with
            | Some y => y :: omap (classify_spec db) (drop (S j) strings)
            | None => omap (classify_spec db) (drop (S j) strings)
            end).
    by rewrite Hclass. }
  apply write_votes_middle.
Qed.

Lemma analyzer_number_is_rank_of_vote_witness :
  upper_respects_space ascii_db
  /\ complete_schedule (length Voting.SENTIMENT_PROMPTS) [0; 1; 2]
  /\ exists votes,
       Voting.analyze_sentiment_voting ascii_db
         (mock_net [lit "I cannot tell"; lit "Negative."; lit "positive"]) [0; 1; 2]
         (lit "It rains.")
       = Some (Ok (Voting.NEGATIVE, votes))
       /\ write_votes 1 votes !! 0 = Some (analyzer_line 1 Voting.NEGATIVE).
Proof.
  assert (complete_schedule (length Voting.SENTIMENT_PROMPTS) [0; 1; 2]) as Hcomplete.
  { unfold complete_schedule. apply (bool_decide_unpack _). by vm_compute. }
  split; [exact ascii_db_respects_space|]. split; [exact Hcomplete|].
  destruct (analyzer_number_is_rank_of_vote ascii_db
              (mock_net [lit "I cannot tell"; lit "Negative."; lit "positive"])
              [0; 1; 2] (lit "It rains.") ascii_db_respects_space Hcomplete)
    as (responses & Hgather & Hstrings & _).
  destruct (Hstrings [lit "I cannot tell"; lit "Negative."; lit "positive"])
    as (winner & votes & Hanalyze & _ & Hrank).
  { vm_compute in Hgather. injection Hgather as <-. by vm_compute. }
  destruct (Hrank 1 _ Voting.NEGATIVE eq_refl) as (before & Hbefore & _ & Hline).
  { by vm_compute. }
  exists votes. split.
  - rewrite Hanalyze. vm_compute in Hanalyze. by injection Hanalyze as <- <-.
  - vm_compute in Hbefore. injection Hbefore as <-. exact Hline.
Defined.

(** ** A response that is no string *)


